(** * Microphone evaluation pipeline: a shallow embedding of [evaluate.py]

    The development follows the source file top to bottom: the Python
    builtins the script relies on, the three dataclasses, the audio metric
    extraction, the composite quality score, the text normaliser, the
    per-sample evaluation, the report generator and the merge logic of
    [main].

    Numbers.  Python floats are modelled by rationals ([Q]); integers by
    [Z] or [nat].  Strings are lists of 8-bit code points ([string]), read
    as the code points U+0000..U+00FF of a Python [str]. *)

From Stdlib Require Import List String Ascii Bool Arith ZArith QArith Qround Qabs.
From Stdlib Require Import Lia Lqa Permutation Sorting.Sorted.
Import ListNotations.

Local Open Scope Q_scope.

(** ** Python builtins *)

Module Py.

(** [a < b] on floats. *)
Definition ltb (a b : Q) : bool := negb (Qle_bool b a).

(** [a >= b] and [a <= b] on floats. *)
Definition geb (a b : Q) : bool := Qle_bool b a.
Definition leb (a b : Q) : bool := Qle_bool a b.

(** [max(a, b)]: the first argument is kept unless the second is
    strictly greater. *)
Definition max (a b : Q) : Q := if ltb a b then b else a.

(** [min(a, b)]: the first argument is kept unless the second is
    strictly smaller. *)
Definition min (a b : Q) : Q := if ltb b a then b else a.

(** Truthiness of a float: [0.0] is falsy. *)
Definition truthy (x : Q) : bool := negb (Qeq_bool x 0).

(** Truthiness of an [Optional[int]]. *)
Definition truthy_int (x : option Z) : bool :=
  match x with
  | Some v => negb (Z.eqb v 0)
  | None => false
  end.

(** [abs(x)]. *)
Definition abs (x : Q) : Q := Qabs x.

(** [sum(xs)] over floats. *)
Definition sum (xs : list Q) : Q := fold_left Qplus xs 0.

(** [enumerate(xs)] starting at [i]. *)
Fixpoint enumerate_from {A : Type} (i : nat) (xs : list A) : list (nat * A) :=
  match xs with
  | [] => []
  | x :: xs' => (i, x) :: enumerate_from (S i) xs'
  end.

Definition enumerate {A : Type} (xs : list A) : list (nat * A) :=
  enumerate_from 0 xs.

(** [sorted(xs, key=key)]: a stable sort.  [le k1 k2] is the order on
    keys; an element is placed in front of the first element of the
    already sorted tail whose key is not smaller, so equal keys keep
    their order in the input. *)
Section Sorted.
Context {A K : Type}.
Variable le : K -> K -> bool.
Variable key : A -> K.

Fixpoint insert (x : A) (l : list A) : list A :=
  match l with
  | [] => [x]
  | y :: l' => if le (key x) (key y) then x :: y :: l'
               else y :: insert x l'
  end.

Fixpoint sorted (l : list A) : list A :=
  match l with
  | [] => []
  | x :: l' => insert x (sorted l')
  end.
End Sorted.

Fixpoint pow10 (n : nat) : positive :=
  match n with
  | O => 1%positive
  | S n' => (10 * pow10 n')%positive
  end.

(** [round(x, n)]: the multiple of [10^-n] closest to [x], halves going
    to the even multiple.  The result is kept with denominator [10^n]. *)
Definition round (x : Q) (n : nat) : Q :=
  let p := pow10 n in
  let y := x * inject_Z (Zpos p) in
  let f := Qfloor y in
  let r := y - inject_Z f in
  let k := if ltb r (1 # 2) then f
           else if ltb (1 # 2) r then (f + 1)%Z
           else if Z.even f then f else (f + 1)%Z in
  Qmake k p.

End Py.

(** ** Dataclasses *)

Record AudioMetrics := {
  duration_seconds : Q;
  sample_rate : Z;
  channels : Z;
  bit_depth : option Z;
  codec : string;
  bitrate_kbps : option Q;
  peak_amplitude_db : Q;
  rms_level_db : Q;
  estimated_snr_db : option Q;
  dynamic_range_db : Q;
  silence_ratio : Q;
  clipping_ratio : Q
}.

Record TranscriptionResult := {
  service : string;
  text : string;
  wer : Q;
  cer : Q;
  processing_time_seconds : option Q;
  run_date : option string
}.

(** The [microphone] dictionary of a sample: [manufacturer] and [model]
    are read with [m['...']], [category] with [m.get('category')], so only
    the latter may be missing. *)
Record Microphone := {
  manufacturer : string;
  model : string;
  category : option string;
  attributes : list (string * string)
}.

Record SampleEvaluation := {
  sample_id : Z;
  filename : string;
  microphone : Microphone;
  audio_metrics : AudioMetrics;
  transcriptions : list TranscriptionResult;
  audio_quality_score : Q
}.

(** ** calculate_audio_quality_score *)

Module Score.

(** Sample rate score (max 15 points). *)
Definition sample_rate_points (sr : Z) : Q :=
  if (48000 <=? sr)%Z then 15
  else if (44100 <=? sr)%Z then 12
  else if (22050 <=? sr)%Z then 8
  else 5.

(** Bit depth score (max 10 points). *)
Definition bit_depth_points (bd : option Z) : Q :=
  match bd with
  | Some b =>
      if Py.truthy_int (Some b) then
        if (24 <=? b)%Z then 10
        else if (16 <=? b)%Z then 8
        else 5
      else 6
  | None => 6
  end.

(** SNR score (max 25 points).  The guard is [if metrics.estimated_snr_db:],
    the truthiness of the optional float. *)
Definition snr_points (snr : option Q) : Q :=
  match snr with
  | Some s =>
      if Py.truthy s then
        if Py.geb s 40 then 25
        else if Py.geb s 30 then 20
        else if Py.geb s 20 then 15
        else if Py.geb s 10 then 10
        else 5
      else 12
  | None => 12
  end.

(** RMS level score (max 20 points). *)
Definition rms_points (rms : Q) : Q :=
  if Py.leb (-20) rms && Py.leb rms (-10) then 20
  else if Py.leb (-25) rms && Py.leb rms (-8) then 15
  else if Py.leb (-30) rms && Py.leb rms (-6) then 10
  else 5.

(** Clipping penalty (max 15 points). *)
Definition clipping_points (c : Q) : Q := 15 * (1 - c).

(** Dynamic range score (max 15 points). *)
Definition dynamic_range_points (dr : Q) : Q :=
  if Py.leb 30 dr && Py.leb dr 60 then 15
  else if Py.leb 20 dr && Py.leb dr 70 then 12
  else if Py.leb 15 dr && Py.leb dr 80 then 8
  else 5.

(** The running [score] just before the final clamp. *)
Definition raw_score (m : AudioMetrics) : Q :=
  0 + sample_rate_points (sample_rate m)
    + bit_depth_points (bit_depth m)
    + snr_points (estimated_snr_db m)
    + rms_points (rms_level_db m)
    + clipping_points (clipping_ratio m)
    + dynamic_range_points (dynamic_range_db m).

Definition calculate_audio_quality_score (m : AudioMetrics) : Q :=
  Py.min 100 (Py.max 0 (raw_score m)).

End Score.

(** ** Exceptions

    A call that may raise returns a [result]; [Raise] carries the Python
    exception class. *)

Inductive exn :=
| JSONDecodeError
| FileNotFoundError
| ValueError
| IndexError
| ZeroDivisionError
| RequestException.

Inductive result (A : Type) :=
| Ok (a : A)
| Raise (e : exn).

Arguments Ok {A} a.
Arguments Raise {A} e.

Definition bind {A B : Type} (r : result A) (k : A -> result B) : result B :=
  match r with
  | Ok a => k a
  | Raise e => Raise e
  end.

Notation "x <- r ;; k" := (bind r (fun x => k))
  (at level 61, r at next level, right associativity).

Definition is_ok {A : Type} (r : result A) : bool :=
  match r with
  | Ok _ => true
  | Raise _ => false
  end.

(** [mapM] for [result]: the first exception stops the traversal. *)
Fixpoint map_result {A B : Type} (f : A -> result B) (l : list A) : result (list B) :=
  match l with
  | [] => Ok []
  | x :: l' => y <- f x ;; ys <- map_result f l' ;; Ok (y :: ys)
  end.

(** ** Text: [str.lower], [re.sub(r"[^\w\s]", "", _)], [str.split], [" ".join] *)

Module Text.

Definition code (c : ascii) : N := N_of_ascii c.

Definition in_range (lo hi : N) (c : ascii) : bool :=
  (lo <=? code c)%N && (code c <=? hi)%N.

(** Whitespace as seen by [str.split()] and by [\s] in a [str] pattern:
    TAB..CR, FS..US, SPACE, NEL and NBSP. *)
Definition is_space (c : ascii) : bool :=
  in_range 9 13 c || in_range 28 32 c
  || (code c =? 133)%N || (code c =? 160)%N.

Definition is_digit (c : ascii) : bool := in_range 48 57 c.
Definition is_upper_ascii (c : ascii) : bool := in_range 65 90 c.
Definition is_lower_ascii (c : ascii) : bool := in_range 97 122 c.

(** Letters and numeric characters: what [str.isalnum] accepts. *)
Definition is_alnum (c : ascii) : bool :=
  is_digit c || is_upper_ascii c || is_lower_ascii c
  || (code c =? 170)%N || (code c =? 178)%N || (code c =? 179)%N
  || (code c =? 181)%N || (code c =? 185)%N || (code c =? 186)%N
  || in_range 188 190 c
  || in_range 192 214 c || in_range 216 246 c || in_range 248 255 c.

Definition underscore : ascii := "_"%char.
Definition space : ascii := " "%char.

(** [\w] in a [str] pattern: alphanumerics and the underscore. *)
Definition is_word (c : ascii) : bool :=
  is_alnum c || (code c =? 95)%N.

(** [str.lower] on one code point: A-Z and the upper-case letters
    U+00C0..U+00DE (U+00D7, the multiplication sign, apart) move up by 32. *)
Definition lower_char (c : ascii) : ascii :=
  if is_upper_ascii c
     || in_range 192 214 c || in_range 216 222 c
  then ascii_of_N (code c + 32)
  else c.

Definition lower (l : list ascii) : list ascii := map lower_char l.

(** [re.sub(r"[^\w\s]", "", text)]: every character that is neither a
    word character nor whitespace is deleted. *)
Definition strip_symbols (l : list ascii) : list ascii :=
  filter (fun c => is_word c || is_space c) l.

Definition cons_head (c : ascii) (ws : list (list ascii)) : list (list ascii) :=
  match ws with
  | [] => [[c]]
  | w :: ws' => (c :: w) :: ws'
  end.

(** [text.split()]: the maximal runs of non-whitespace characters. *)
Fixpoint split (l : list ascii) : list (list ascii) :=
  match l with
  | [] => []
  | c :: l' =>
      if is_space c then split l'
      else match l' with
           | [] => [[c]]
           | d :: _ => if is_space d then [c] :: split l'
                       else cons_head c (split l')
           end
  end.

(** Whether the text is empty or begins with whitespace. *)
Definition starts_blank (l : list ascii) : bool :=
  match l with
  | [] => true
  | d :: _ => is_space d
  end.

(** A word: not empty and free of whitespace. *)
Definition word (w : list ascii) : Prop :=
  w <> [] /\ Forall (fun c => is_space c = false) w.

(** [" ".join(words)]. *)
Fixpoint join (ws : list (list ascii)) : list ascii :=
  match ws with
  | [] => []
  | [w] => w
  | w :: ws' => w ++ space :: join ws'
  end.

Definition normalize_chars (l : list ascii) : list ascii :=
  join (split (strip_symbols (lower l))).

Definition normalize_text (text : string) : string :=
  string_of_list_ascii (normalize_chars (list_ascii_of_string text)).

(** [get_reference_text]: lower-case and collapse whitespace, applied to
    the contents of the reference file. *)
Definition get_reference_text (contents : string) : string :=
  string_of_list_ascii (join (split (lower (list_ascii_of_string contents)))).

(** [text.lower()] on a string. *)
Definition lower_text (text : string) : string :=
  string_of_list_ascii (lower (list_ascii_of_string text)).

(** [len(text.split())]. *)
Definition word_count (text : string) : nat :=
  List.length (split (list_ascii_of_string text)).

(** Truthiness of a [str]. *)
Definition nonempty (text : string) : bool :=
  match text with
  | EmptyString => false
  | _ => true
  end.

End Text.

(** ** estimate_noise_floor *)

Module NoiseFloor.

(** [int(x)] on a float: truncation towards zero. *)
Definition int_of_float (x : Q) : Z :=
  if Py.ltb x 0 then Qceiling x else Qfloor x.

(** The loop over the [RMS_level] lines of the filter output.  A line is
    given by the outcome of [float(line.split("=")[1])]: [None] when it
    raises [ValueError] or [IndexError] (the [except] clause passes).
    Values that are not above -100 are left out. *)
Fixpoint gather (lines : list (option Q)) : list Q :=
  match lines with
  | [] => []
  | Some val :: rest => if Py.ltb (-100) val then val :: gather rest
                        else gather rest
  | None :: rest => gather rest
  end.

(** [rms_values.sort()]. *)
Definition sort_values (vals : list Q) : list Q :=
  Py.sorted Qle_bool (fun v => v) vals.

(** [max(0, int(len(rms_values) * 0.1))], with [0.1] read as the rational
    1/10.  (The float product truncates to the same integer for every list
    length a run can produce.) *)
Definition percentile_index (n : nat) : Z :=
  Z.max 0 (int_of_float (inject_Z (Z.of_nat n) * (1 # 10))).

Definition estimate_noise_floor (lines : list (option Q)) : result Q :=
  let rms_values := gather lines in
  match rms_values with
  | [] => Ok (-60)
  | _ :: _ =>
      let rms_sorted := sort_values rms_values in
      let idx := percentile_index (List.length rms_sorted) in
      match nth_error rms_sorted (Z.to_nat idx) with
      | Some v => Ok v
      | None => Raise IndexError
      end
  end.

End NoiseFloor.

(** ** The outside world

    Everything the script obtains from outside the process: the file
    system, the [ffprobe] and [ffmpeg] subprocesses, the two transcription
    services, the environment, the clock and the [jiwer] metrics.  A
    collaborator that can raise returns a [result]; the [jiwer] metrics
    are taken as total functions of the two normalised texts. *)

(** One entry of [streams].  [bits_per_sample] is a JSON number;
    [sample_rate], [channels] and [bits_per_raw_sample] are JSON strings of
    digits, given here by the number they denote when they are present. *)
Record Stream := {
  codec_type : option string;
  stream_sample_rate : option Z;
  stream_channels : option Z;
  codec_name : option string;
  bits_per_sample : option Z;
  bits_per_raw_sample : option Z
}.

(** The JSON document printed by [ffprobe]: [streams] (default [[]]) and
    the [duration] and [bit_rate] entries of [format] (default [{}]). *)
Record ProbeData := {
  streams : list Stream;
  format_duration : option Q;
  format_bit_rate : option Q
}.

(** The [levels] dictionary built by [analyze_audio_levels]. *)
Record Levels := {
  peak_db : option Q;
  mean_db : option Q
}.

Record HttpReply := {
  status_code : Z;
  reply_text : option string;
  elapsed : Q
}.

Record DetailedResult := {
  d_sample_id : Z;
  d_filename : string;
  d_microphone : Microphone;
  d_audio_metrics : AudioMetrics;
  d_audio_quality_score : Q;
  d_transcriptions : list TranscriptionResult
}.

Record QualityEntry := {
  q_rank : nat;
  q_sample_id : Z;
  q_microphone : string;
  q_category : option string;
  q_score : Q
}.

Record WerEntry := {
  w_rank : nat;
  w_sample_id : Z;
  w_microphone : string;
  w_wer_percent : Q
}.

Record CategoryData := {
  samples : list Z;
  avg_quality : Q;
  avg_wer : option Q
}.

Record Summary := {
  total_samples : nat;
  reference_text_words : nat;
  openai_api_available : bool
}.

(** The [rankings] dictionary: [by_openai_whisper_wer] is a key that is
    only sometimes inserted, hence the [option]. *)
Record Rankings := {
  by_audio_quality : list QualityEntry;
  by_local_whisper_wer : list WerEntry;
  by_openai_whisper_wer : option (list WerEntry)
}.

(** [category_analysis] is a dictionary; its items are kept in insertion
    order, as [json.dump] writes them. *)
Record Report := {
  summary : Summary;
  rankings : Rankings;
  category_analysis : list (string * CategoryData);
  detailed_results : list DetailedResult
}.

Record World := {
  file_exists : string -> bool;
  ffprobe : string -> result ProbeData;
  volumedetect : string -> result Levels;
  astats : string -> result (list (option Q));
  post_local : string -> result HttpReply;
  post_openai : string -> result HttpReply;
  OPENAI_API_KEY : option string;
  today : string;
  jiwer_wer : string -> string -> Q;
  jiwer_cer : string -> string -> Q;
  results_file : option Report
}.

(** ** analyze_audio_metrics *)

Module Metrics.

Definition is_audio (s : Stream) : bool :=
  match codec_type s with
  | Some t => String.eqb t "audio"
  | None => false
  end.

Definition default {A : Type} (d : A) (x : option A) : A :=
  match x with
  | Some v => v
  | None => d
  end.

(** [a or b] on optional integers. *)
Definition or_int (a b : option Z) : option Z :=
  if Py.truthy_int a then a else b.

Definition analyze_audio_metrics (w : World) (filepath : string)
  : result AudioMetrics :=
  probe_data <- ffprobe w filepath ;;
  levels <- volumedetect w filepath ;;
  let audio_stream := find is_audio (streams probe_data) in
  let duration := default 0 (format_duration probe_data) in
  let sample_rate :=
    match audio_stream with
    | Some a => default 0%Z (stream_sample_rate a)
    | None => 0%Z
    end in
  let channels :=
    match audio_stream with
    | Some a => default 0%Z (stream_channels a)
    | None => 0%Z
    end in
  let codec :=
    match audio_stream with
    | Some a => default "unknown"%string (codec_name a)
    | None => "unknown"%string
    end in
  let bit_depth :=
    match audio_stream with
    | Some a =>
        (* [bits] is the non-zero integer, or else the raw-sample string,
           which [if bits:] accepts whenever it is present *)
        or_int (bits_per_sample a) (bits_per_raw_sample a)
    | None => None
    end in
  let bitrate_kbps :=
    match format_bit_rate probe_data with
    | Some b => Some (b / 1000)
    | None => None
    end in
  let peak_db := default 0 (peak_db levels) in
  let mean_db := default (-20) (mean_db levels) in
  lines <- astats w filepath ;;
  noise_floor <- NoiseFloor.estimate_noise_floor lines ;;
  let estimated_snr :=
    if Py.truthy noise_floor then Some (mean_db - noise_floor) else None in
  let dynamic_range :=
    if Py.truthy noise_floor then Py.abs (peak_db - noise_floor)
    else Py.abs (peak_db - mean_db) in
  let silence_ratio :=
    if Py.truthy noise_floor
    then Py.max 0 (Py.min 1 ((noise_floor + 60) / 60))
    else 1 # 10 in
  let clipping_ratio :=
    if Py.ltb (-3) peak_db
    then Py.max 0 (Py.min 1 ((peak_db + 1) / 3))
    else 0 in
  Ok {| duration_seconds := duration;
        sample_rate := sample_rate;
        channels := channels;
        bit_depth := bit_depth;
        codec := codec;
        bitrate_kbps := bitrate_kbps;
        peak_amplitude_db := peak_db;
        rms_level_db := mean_db;
        estimated_snr_db := estimated_snr;
        dynamic_range_db := dynamic_range;
        silence_ratio := silence_ratio;
        clipping_ratio := clipping_ratio |}.

End Metrics.

(** ** Transcription and evaluate_sample *)

Definition local_service : string := "local_whisper_large_v3_turbo".
Definition openai_service : string := "openai_whisper_1".

(** One entry of [metadata["samples"]]. *)
Record Sample := {
  id : Z;
  s_filename : string;
  s_microphone : Microphone
}.

Module Evaluate.

Definition reply_to_text (r : HttpReply) : string * Q :=
  if (status_code r =? 200)%Z
  then (Metrics.default EmptyString (reply_text r), elapsed r)
  else (EmptyString, elapsed r).

Definition transcribe_with_local_whisper (w : World) (filepath : string)
  : result (string * Q) :=
  r <- post_local w filepath ;; Ok (reply_to_text r).

(** Truthiness of [OPENAI_API_KEY]: set and not empty. *)
Definition key_configured (w : World) : bool :=
  match OPENAI_API_KEY w with
  | Some k => Text.nonempty k
  | None => false
  end.

Definition transcribe_with_openai (w : World) (filepath : string)
  : result (string * Q) :=
  if key_configured w
  then r <- post_openai w filepath ;; Ok (reply_to_text r)
  else Ok (EmptyString, 0).

Definition transcription (w : World) (svc reference : string)
    (out : string * Q) : list TranscriptionResult :=
  let (txt, time) := out in
  if Text.nonempty txt then
    let normalized := Text.normalize_text txt in
    [ {| service := svc;
         text := txt;
         wer := jiwer_wer w reference normalized;
         cer := jiwer_cer w reference normalized;
         processing_time_seconds := Some time;
         run_date := Some (today w) |} ]
  else [].

Definition evaluate_sample (w : World) (sample : Sample)
    (reference_text : string) : result SampleEvaluation :=
  let filepath := s_filename sample in
  metrics <- Metrics.analyze_audio_metrics w filepath ;;
  let score := Score.calculate_audio_quality_score metrics in
  let normalized_reference := Text.normalize_text reference_text in
  (* try: ... except Exception: the local backend is optional *)
  let local :=
    match transcribe_with_local_whisper w filepath with
    | Ok out => transcription w local_service normalized_reference out
    | Raise _ => []
    end in
  cloud <- (if key_configured w
            then out <- transcribe_with_openai w filepath ;;
                 Ok (transcription w openai_service normalized_reference out)
            else Ok []) ;;
  Ok {| sample_id := id sample;
        filename := s_filename sample;
        microphone := s_microphone sample;
        audio_metrics := metrics;
        transcriptions := local ++ cloud;
        audio_quality_score := score |}.

(** The two transcription blocks of [evaluate_sample] on their own: the
    local one inside its [try], the cloud one behind the key test. *)
Definition local_transcriptions (w : World) (reference_text filepath : string)
  : list TranscriptionResult :=
  match transcribe_with_local_whisper w filepath with
  | Ok out =>
      transcription w local_service (Text.normalize_text reference_text) out
  | Raise _ => []
  end.

Definition cloud_transcriptions (w : World) (reference_text filepath : string)
  : result (list TranscriptionResult) :=
  if key_configured w
  then out <- transcribe_with_openai w filepath ;;
       Ok (transcription w openai_service
                         (Text.normalize_text reference_text) out)
  else Ok [].

End Evaluate.

(** ** generate_report *)

Module ReportGen.

(** [any(t.service == svc for t in e.transcriptions)]. *)
Definition has_service (svc : string) (e : SampleEvaluation) : bool :=
  existsb (fun t => String.eqb (service t) svc) (transcriptions e).

(** [next((t.wer for t in e.transcriptions if t.service == svc), None)]. *)
Definition service_wer (svc : string) (e : SampleEvaluation) : option Q :=
  option_map wer
    (find (fun t => String.eqb (service t) svc) (transcriptions e)).

(** [next(t.wer for t in e.transcriptions if t.service == svc)], used only
    on evaluations that passed the [has_service] filter; the default
    stands for the [StopIteration] that can then not happen. *)
Definition wer_key (svc : string) (e : SampleEvaluation) : Q :=
  Metrics.default 0 (service_wer svc e).

(** [sorted(evaluations, key=lambda e: e.audio_quality_score, reverse=True)];
    with [reverse=True] elements of equal key keep their input order. *)
Definition by_quality (evaluations : list SampleEvaluation)
  : list SampleEvaluation :=
  Py.sorted (fun a b => Py.geb a b) audio_quality_score evaluations.

(** [sorted([e for e in evaluations if any(...)], key=... wer ...)]. *)
Definition by_wer (svc : string) (evaluations : list SampleEvaluation)
  : list SampleEvaluation :=
  Py.sorted Qle_bool (wer_key svc) (filter (has_service svc) evaluations).

(** The order a ranking has when ties go to the lower sample id. *)
Definition before_by_score_then_id (a b : SampleEvaluation) : Prop :=
  audio_quality_score b < audio_quality_score a
  \/ (audio_quality_score a == audio_quality_score b
      /\ (sample_id a <= sample_id b)%Z).

(** [f"{e.microphone['manufacturer']} {e.microphone['model']}"]. *)
Definition microphone_name (e : SampleEvaluation) : string :=
  (manufacturer (microphone e) ++ " " ++ model (microphone e))%string.

Definition quality_entry (ie : nat * SampleEvaluation) : QualityEntry :=
  let (i, e) := ie in
  {| q_rank := i + 1;
     q_sample_id := sample_id e;
     q_microphone := microphone_name e;
     q_category := category (microphone e);
     q_score := Py.round (audio_quality_score e) 1 |}.

Definition wer_entry (svc : string) (ie : nat * SampleEvaluation) : WerEntry :=
  let (i, e) := ie in
  {| w_rank := i + 1;
     w_sample_id := sample_id e;
     w_microphone := microphone_name e;
     w_wer_percent := Py.round (wer_key svc e * 100) 2 |}.

Definition quality_ranking (evaluations : list SampleEvaluation)
  : list QualityEntry :=
  map quality_entry (Py.enumerate (by_quality evaluations)).

Definition wer_ranking (svc : string) (evaluations : list SampleEvaluation)
  : list WerEntry :=
  map (wer_entry svc) (Py.enumerate (by_wer svc evaluations)).

(** [e.microphone.get("category", "unknown")]: the grouping key. *)
Definition group_key (e : SampleEvaluation) : string :=
  Metrics.default "unknown"%string (category (microphone e)).

(** One pass of the first loop: create the entry of [cat] when it is new,
    then append the sample id to it. *)
Fixpoint add_to_group (cat : string) (sid : Z) (groups : list (string * list Z))
  : list (string * list Z) :=
  match groups with
  | [] => [(cat, [sid])]
  | (c, ids) :: rest =>
      if String.eqb c cat then (c, ids ++ [sid]) :: rest
      else (c, ids) :: add_to_group cat sid rest
  end.

Definition group_samples (evaluations : list SampleEvaluation)
  : list (string * list Z) :=
  fold_left (fun groups e => add_to_group (group_key e) (sample_id e) groups)
            evaluations [].

(** [e.microphone.get("category") == cat]: no default here. *)
Definition in_category (cat : string) (e : SampleEvaluation) : bool :=
  match category (microphone e) with
  | Some c => String.eqb c cat
  | None => false
  end.

(** [sum(xs) / len(xs)], which raises on an empty list. *)
Definition mean (xs : list Q) : result Q :=
  match xs with
  | [] => Raise ZeroDivisionError
  | _ :: _ => Ok (Py.sum xs / inject_Z (Z.of_nat (List.length xs)))
  end.

(** The [wers] list of a group, [None] entries already removed. *)
Fixpoint present {A : Type} (xs : list (option A)) : list A :=
  match xs with
  | [] => []
  | Some x :: rest => x :: present rest
  | None :: rest => present rest
  end.

(** The body of the second loop, for one item of [categories]. *)
Definition category_stats (evaluations : list SampleEvaluation)
    (group : string * list Z) : result (string * CategoryData) :=
  let (cat, ids) := group in
  let cat_evals := filter (in_category cat) evaluations in
  q <- mean (map audio_quality_score cat_evals) ;;
  let wers := present (map (service_wer local_service) cat_evals) in
  let w := match wers with
           | [] => None
           | _ :: _ =>
               Some (Py.sum wers / inject_Z (Z.of_nat (List.length wers)))
           end in
  Ok (cat, {| samples := ids; avg_quality := q; avg_wer := w |}).

Definition categories (evaluations : list SampleEvaluation)
  : result (list (string * CategoryData)) :=
  map_result (category_stats evaluations) (group_samples evaluations).

Definition detailed (e : SampleEvaluation) : DetailedResult :=
  {| d_sample_id := sample_id e;
     d_filename := filename e;
     d_microphone := microphone e;
     d_audio_metrics := audio_metrics e;
     d_audio_quality_score := Py.round (audio_quality_score e) 1;
     d_transcriptions := transcriptions e |}.

(** [OPENAI_API_KEY is not None]. *)
Definition api_available (api_key : option string) : bool :=
  match api_key with
  | Some _ => true
  | None => false
  end.

(** [api_key] is the module-level [OPENAI_API_KEY], read from the
    environment when the module is loaded. *)
Definition generate_report (api_key : option string)
    (evaluations : list SampleEvaluation) (reference_text : string)
  : result Report :=
  let by_openai_wer := by_wer openai_service evaluations in
  cats <- categories evaluations ;;
  Ok {| summary :=
          {| total_samples := List.length evaluations;
             reference_text_words := Text.word_count reference_text;
             openai_api_available := api_available api_key |};
        rankings :=
          {| by_audio_quality := quality_ranking evaluations;
             by_local_whisper_wer := wer_ranking local_service evaluations;
             by_openai_whisper_wer :=
               match by_openai_wer with
               | [] => None
               | _ :: _ => Some (wer_ranking openai_service evaluations)
               end |};
        category_analysis := cats;
        detailed_results := map detailed evaluations |}.

(** [report["rankings"].get("by_..._wer")] for the ranking of a backend:
    the local key is always in the dictionary, the cloud key only when it
    was inserted, and no other backend has a key. *)
Definition wer_section (svc : string) (r : Rankings) : option (list WerEntry) :=
  if String.eqb svc local_service then Some (by_local_whisper_wer r)
  else if String.eqb svc openai_service then by_openai_whisper_wer r
  else None.

End ReportGen.

(** ** main *)

Module Main.

(** [--samples] (already split and converted) and [--merge]. *)
Record Args := {
  arg_samples : option (list Z);
  arg_merge : bool
}.

(** What the run prints about skipped samples. *)
Inductive Notice :=
| Skipping (sample : Z) (file : string).

Definition mem (i : Z) (ids : list Z) : bool := existsb (Z.eqb i) ids.

(** [samples_to_evaluate]. *)
Definition samples_to_evaluate (args : Args) (metadata : list Sample)
  : list Sample :=
  match arg_samples args with
  | Some sample_ids => filter (fun s => mem (id s) sample_ids) metadata
  | None => metadata
  end.

(** [existing_detailed_results], after the samples about to be
    re-evaluated have been removed. *)
Definition existing_detailed_results (w : World) (args : Args)
  : list DetailedResult :=
  if arg_merge args then
    match results_file w with
    | Some existing_report =>
        match arg_samples args with
        | Some sample_ids =>
            filter (fun r => negb (mem (d_sample_id r) sample_ids))
                   (detailed_results existing_report)
        | None => detailed_results existing_report
        end
    | None => []
    end
  else [].

(** The evaluation loop.  The state is the [evaluations] list and the
    notices printed so far; an exception leaves the loop at once. *)
Fixpoint evaluate_each (w : World) (reference_text : string)
    (todo : list Sample) (st : list SampleEvaluation * list Notice)
  : result (list SampleEvaluation * list Notice) :=
  match todo with
  | [] => Ok st
  | sample :: rest =>
      if file_exists w (s_filename sample) then
        eval_result <- Evaluate.evaluate_sample w sample reference_text ;;
        evaluate_each w reference_text rest (fst st ++ [eval_result], snd st)
      else
        evaluate_each w reference_text rest
          (fst st, snd st ++ [Skipping (id sample) (s_filename sample)])
  end.

(** A persisted entry turned back into a [SampleEvaluation]. *)
Definition existing_eval (r : DetailedResult) : SampleEvaluation :=
  {| sample_id := d_sample_id r;
     filename := d_filename r;
     microphone := d_microphone r;
     audio_metrics := d_audio_metrics r;
     transcriptions := d_transcriptions r;
     audio_quality_score := d_audio_quality_score r |}.

(** The merge step: taken only when [--merge] is given and some earlier
    entry is left; it appends the earlier entries and sorts by id. *)
Definition merge_existing (args : Args) (existing : list DetailedResult)
    (evaluations : list SampleEvaluation) : list SampleEvaluation :=
  if arg_merge args then
    match existing with
    | [] => evaluations
    | _ :: _ =>
        Py.sorted Z.leb sample_id (evaluations ++ map existing_eval existing)
    end
  else evaluations.

(** The list handed to [generate_report], with the notices. *)
Definition collect (w : World) (args : Args) (metadata : list Sample)
    (reference_text : string)
  : result (list SampleEvaluation * list Notice) :=
  let existing := existing_detailed_results w args in
  st <- evaluate_each w reference_text (samples_to_evaluate args metadata)
                      ([], []) ;;
  Ok (merge_existing args existing (fst st), snd st).

(** The WER column of the category lines printed at the end of the run:
    [f"{data['avg_wer']*100:.2f}%" if data['avg_wer'] else "N/A"]. *)
Inductive WerText :=
| NotAvailable
| Percent (value : Q).

Definition wer_str (data : CategoryData) : WerText :=
  match avg_wer data with
  | Some x => if Py.truthy x then Percent (Py.round (x * 100) 2)
              else NotAvailable
  | None => NotAvailable
  end.

(** The same machine with another saved report. *)
Definition with_results_file (w : World) (saved : option Report) : World :=
  {| file_exists := file_exists w;
     ffprobe := ffprobe w;
     volumedetect := volumedetect w;
     astats := astats w;
     post_local := post_local w;
     post_openai := post_openai w;
     OPENAI_API_KEY := OPENAI_API_KEY w;
     today := today w;
     jiwer_wer := jiwer_wer w;
     jiwer_cer := jiwer_cer w;
     results_file := saved |}.

Definition main (w : World) (args : Args) (metadata : list Sample)
    (reference_contents : string) : result (Report * list Notice) :=
  let reference_text := Text.get_reference_text reference_contents in
  st <- collect w args metadata reference_text ;;
  report <- ReportGen.generate_report (OPENAI_API_KEY w) (fst st)
                                      reference_text ;;
  Ok (report, snd st).

End Main.

(** ** Concrete inputs used by the examples below *)

Module Examples.

Definition mic (cat : option string) : Microphone :=
  {| manufacturer := "Acme"; model := "M1"; category := cat;
     attributes := [] |}.

(** The metrics of the worked example: every factor at its maximum. *)
Definition best_metrics : AudioMetrics :=
  {| duration_seconds := 10; sample_rate := 48000; channels := 1;
     bit_depth := Some 24%Z; codec := "pcm_s24le"; bitrate_kbps := None;
     peak_amplitude_db := -1; rms_level_db := -15;
     estimated_snr_db := Some 42; dynamic_range_db := 45;
     silence_ratio := 0; clipping_ratio := 0 |}.

(** A recording whose mean level equals its noise floor: 0 dB of SNR. *)
Definition snr_zero_metrics : AudioMetrics :=
  {| duration_seconds := 10; sample_rate := 48000; channels := 1;
     bit_depth := Some 24%Z; codec := "pcm_s24le"; bitrate_kbps := None;
     peak_amplitude_db := -1; rms_level_db := -15;
     estimated_snr_db := Some 0; dynamic_range_db := 45;
     silence_ratio := 0; clipping_ratio := 0 |}.

Definition snr_unknown_metrics : AudioMetrics :=
  {| duration_seconds := 10; sample_rate := 48000; channels := 1;
     bit_depth := Some 24%Z; codec := "pcm_s24le"; bitrate_kbps := None;
     peak_amplitude_db := -1; rms_level_db := -15;
     estimated_snr_db := None; dynamic_range_db := 45;
     silence_ratio := 0; clipping_ratio := 0 |}.

Definition result_of (svc : string) (w : Q) : TranscriptionResult :=
  {| service := svc; text := "coffee"; wer := w; cer := w;
     processing_time_seconds := None; run_date := None |}.

Definition eval_of (i : Z) (cat : option string) (score : Q)
    (trs : list TranscriptionResult) : SampleEvaluation :=
  {| sample_id := i; filename := "samples/a.wav"; microphone := mic cat;
     audio_metrics := best_metrics; transcriptions := trs;
     audio_quality_score := score |}.

(** Two samples with the same score, the higher id first. *)
Definition tied : list SampleEvaluation :=
  [ eval_of 2 (Some "usb"%string) 50 []; eval_of 1 (Some "usb"%string) 50 [] ].

(** Two samples in id order, one with results of both backends. *)
Definition ranked : list SampleEvaluation :=
  [ eval_of 1 (Some "usb"%string) 50
      [ result_of local_service (1 # 4); result_of openai_service (1 # 5) ];
    eval_of 2 (Some "xlr"%string) 80 [ result_of local_service (1 # 10) ] ].

(** A sample whose microphone has no [category] entry. *)
Definition uncategorised : list SampleEvaluation :=
  [ eval_of 1 None 50 [] ].

(** The same with a second sample labelled [unknown] by hand. *)
Definition mixed_unknown : list SampleEvaluation :=
  [ eval_of 1 None 50 []; eval_of 2 (Some "unknown"%string) 90 [] ].

Definition sample_of (i : Z) (file : string) : Sample :=
  {| id := i; s_filename := file; s_microphone := mic (Some "usb"%string) |}.

(** A machine on which every probe answers with an empty document, no
    transcription service is reachable and no key is configured; [files]
    tells which paths exist and [broken] which of them [ffprobe] cannot
    turn into JSON. *)
Definition machine (files broken : string -> bool) (saved : option Report)
  : World :=
  {| file_exists := files;
     ffprobe := fun f =>
       if broken f then Raise JSONDecodeError
       else Ok {| streams := []; format_duration := None;
                  format_bit_rate := None |};
     volumedetect := fun _ => Ok {| peak_db := None; mean_db := None |};
     astats := fun _ => Ok [];
     post_local := fun _ => Raise RequestException;
     post_openai := fun _ => Raise RequestException;
     OPENAI_API_KEY := None;
     today := "2025-01-01";
     jiwer_wer := fun _ _ => 0;
     jiwer_cer := fun _ _ => 0;
     results_file := saved |}.

(** A machine on which both transcription services answer and a key is
    configured.  The local service returns the reference with punctuation,
    the cloud service gets one word wrong. *)
Definition reply (txt : string) : HttpReply :=
  {| status_code := 200; reply_text := Some txt; elapsed := 3 # 2 |}.

Definition studio : World :=
  {| file_exists := fun _ => true;
     ffprobe := fun _ =>
       Ok {| streams := []; format_duration := Some 12;
             format_bit_rate := None |};
     volumedetect := fun _ =>
       Ok {| peak_db := Some (-3); mean_db := Some (-18) |};
     astats := fun _ => Ok [Some (-70); None; Some (-65); Some (-120)];
     post_local := fun _ => Ok (reply "Hot coffee, now!");
     post_openai := fun _ => Ok (reply "Hot toffee now");
     OPENAI_API_KEY := Some "sk-test"%string;
     today := "2025-01-01";
     jiwer_wer := fun a b => if String.eqb a b then 0 else 1 # 3;
     jiwer_cer := fun a b => if String.eqb a b then 0 else 1 # 14;
     results_file := None |}.

Definition everywhere (_ : string) : bool := true.
Definition nowhere (_ : string) : bool := false.

(** Metadata listing sample 2 before sample 1. *)
Definition unordered_metadata : list Sample :=
  [ sample_of 2 "b.wav"; sample_of 1 "a.wav" ].

Definition ordered_metadata : list Sample :=
  [ sample_of 1 "a.wav"; sample_of 2 "b.wav"; sample_of 3 "c.wav" ].

Definition empty_report : Report :=
  {| summary := {| total_samples := 0; reference_text_words := 0;
                   openai_api_available := false |};
     rankings := {| by_audio_quality := []; by_local_whisper_wer := [];
                    by_openai_whisper_wer := None |};
     category_analysis := [];
     detailed_results := [] |}.

Definition saved_entry (i : Z) : DetailedResult :=
  {| d_sample_id := i; d_filename := "old.wav";
     d_microphone := mic (Some "usb"%string);
     d_audio_metrics := best_metrics;
     d_audio_quality_score := 871 # 10;
     d_transcriptions := [] |}.

Definition saved_report (ids : list Z) : Report :=
  {| summary := summary empty_report;
     rankings := rankings empty_report;
     category_analysis := [];
     detailed_results := map saved_entry ids |}.

Definition merge_args (ids : list Z) : Main.Args :=
  {| Main.arg_samples := Some ids; Main.arg_merge := true |}.

(** A run without [--samples] and without [--merge]. *)
Definition plain_args : Main.Args :=
  {| Main.arg_samples := None; Main.arg_merge := false |}.

Definition is_a_wav (f : string) : bool := String.eqb f "a.wav".

End Examples.

(** * Properties *)

(** ** Comparisons on floats *)

Section Comparisons.

Lemma ltb_true (a b : Q) : Py.ltb a b = true <-> a < b.
Proof.
  unfold Py.ltb. rewrite negb_true_iff.
  split; intro H.
  - apply Qnot_le_lt. intro Hle. apply Qle_bool_iff in Hle. congruence.
  - destruct (Qle_bool b a) eqn:E; [|reflexivity].
    apply Qle_bool_iff in E. exfalso. exact (Qlt_not_le _ _ H E).
Qed.

Lemma ltb_false (a b : Q) : Py.ltb a b = false <-> b <= a.
Proof.
  unfold Py.ltb. rewrite negb_false_iff. apply Qle_bool_iff.
Qed.

Lemma Qle_bool_false (a b : Q) : Qle_bool a b = false -> b < a.
Proof.
  intro H. apply ltb_true. unfold Py.ltb. now rewrite H.
Qed.

Lemma Qle_bool_total (a b : Q) : Qle_bool a b = false -> Qle_bool b a = true.
Proof.
  intro H. apply Qle_bool_iff, Qlt_le_weak, Qle_bool_false, H.
Qed.

Lemma Qle_bool_trans (a b c : Q) :
  Qle_bool a b = true -> Qle_bool b c = true -> Qle_bool a c = true.
Proof.
  rewrite !Qle_bool_iff. apply Qle_trans.
Qed.

(** The final clamp [min(100, max(0, score))]. *)
Lemma clamp_bounds (s : Q) :
  0 <= Py.min 100 (Py.max 0 s) /\ Py.min 100 (Py.max 0 s) <= 100.
Proof.
  unfold Py.min, Py.max.
  destruct (Py.ltb 0 s) eqn:E0.
  - apply ltb_true in E0.
    destruct (Py.ltb s 100) eqn:E1.
    + apply ltb_true in E1. split; apply Qlt_le_weak; assumption.
    + split; [discriminate | apply Qle_refl].
  - destruct (Py.ltb 0 100) eqn:E1.
    + split; [apply Qle_refl | discriminate].
    + discriminate.
Qed.

(** Inside the range the clamp changes nothing. *)
Lemma clamp_inside (s : Q) :
  0 <= s -> s <= 100 -> Py.min 100 (Py.max 0 s) == s.
Proof.
  intros H0 H1. unfold Py.min, Py.max.
  destruct (Py.ltb 0 s) eqn:E0.
  - destruct (Py.ltb s 100) eqn:E1; [reflexivity|].
    apply ltb_false in E1. apply Qle_antisym; assumption.
  - apply ltb_false in E0.
    replace (Py.ltb 0 100) with true by reflexivity.
    apply Qle_antisym; assumption.
Qed.

End Comparisons.

(** ** The composite score *)

Section ScoreFacts.

(** C1.  For every [AudioMetrics] value the composite score lies between
    0 and 100.  The function is total: it is defined on every record,
    whatever the levels, ratios and optional fields are. *)
Theorem score_in_range (m : AudioMetrics) :
  0 <= Score.calculate_audio_quality_score m
  /\ Score.calculate_audio_quality_score m <= 100.
Proof.
  unfold Score.calculate_audio_quality_score. apply clamp_bounds.
Qed.

(** The worked example: all six factors at their maximum give 100. *)
Lemma score_best : Score.calculate_audio_quality_score Examples.best_metrics == 100.
Proof. reflexivity. Qed.

Lemma truthy_nonzero (s : Q) : ~ s == 0 -> Py.truthy s = true.
Proof.
  intro H. unfold Py.truthy. apply negb_true_iff.
  destruct (Qeq_bool s 0) eqn:E; [|reflexivity].
  apply Qeq_bool_iff in E. contradiction.
Qed.

Lemma geb_true (a b : Q) : Py.geb a b = true <-> b <= a.
Proof. unfold Py.geb. apply Qle_bool_iff. Qed.

Lemma geb_false (a b : Q) : a < b -> Py.geb a b = false.
Proof.
  intro H. unfold Py.geb. destruct (Qle_bool b a) eqn:E; [|reflexivity].
  apply Qle_bool_iff in E. exfalso. exact (Qlt_not_le _ _ H E).
Qed.

(** The SNR table on every value other than 0 dB, and on a missing value. *)
Lemma snr_points_table (s : Q) :
  ~ s == 0 ->
  (40 <= s -> Score.snr_points (Some s) = 25)
  /\ (30 <= s -> s < 40 -> Score.snr_points (Some s) = 20)
  /\ (20 <= s -> s < 30 -> Score.snr_points (Some s) = 15)
  /\ (10 <= s -> s < 20 -> Score.snr_points (Some s) = 10)
  /\ (s < 10 -> Score.snr_points (Some s) = 5)
  /\ Score.snr_points None = 12.
Proof.
  intro Hnz. unfold Score.snr_points. rewrite (truthy_nonzero s Hnz).
  repeat split; intros;
    repeat match goal with
           | H : ?b <= s |- context [Py.geb s ?b] =>
               rewrite (proj2 (geb_true s b) H)
           | H : s < ?b |- context [Py.geb s ?b] =>
               rewrite (geb_false s b H)
           | |- context [Py.geb s ?b] =>
               rewrite (geb_false s b)
                 by (eapply Qlt_trans; [eassumption | reflexivity])
           end; reflexivity.
Qed.

(** C2.  At an SNR of exactly 0 dB the guard [if metrics.estimated_snr_db:]
    is false, so the branch commented [# Unknown] is taken: the SNR
    factor is 12, not the 5 of the lowest row of the table, and the
    sample scores 87 where the table gives 80. *)
Theorem snr_zero_scored_as_unknown :
  Score.snr_points (Some 0) = 12
  /\ Score.snr_points (Some 0) = Score.snr_points None
  /\ ~ Score.snr_points (Some 0) == 5
  /\ Score.snr_points (Some (1 # 2)) = 5
  /\ Score.calculate_audio_quality_score Examples.snr_zero_metrics == 87
  /\ Score.calculate_audio_quality_score Examples.snr_zero_metrics
     == Score.calculate_audio_quality_score Examples.snr_unknown_metrics.
Proof.
  repeat split; try reflexivity. intro H. discriminate H.
Qed.

End ScoreFacts.

(** ** The stable sort *)

Section SortedFacts.

Context {A K : Type}.
Variable le : K -> K -> bool.
Variable key : A -> K.

Let ordered (a b : A) : Prop := le (key a) (key b) = true.

Lemma insert_perm (x : A) (l : list A) :
  Permutation (Py.insert le key x l) (x :: l).
Proof.
  induction l as [|y l IH]; simpl.
  - apply Permutation_refl.
  - destruct (le (key x) (key y)).
    + apply Permutation_refl.
    + eapply perm_trans; [apply perm_skip, IH | apply perm_swap].
Qed.

Lemma sorted_perm (l : list A) : Permutation (Py.sorted le key l) l.
Proof.
  induction l as [|x l IH]; simpl.
  - constructor.
  - eapply perm_trans; [apply insert_perm | apply perm_skip, IH].
Qed.

Lemma sorted_length (l : list A) :
  List.length (Py.sorted le key l) = List.length l.
Proof. apply Permutation_length, sorted_perm. Qed.

Lemma sorted_In (l : list A) (x : A) : In x (Py.sorted le key l) <-> In x l.
Proof.
  split; apply Permutation_in;
    [apply sorted_perm | apply Permutation_sym, sorted_perm].
Qed.

Hypothesis le_total : forall a b, le a b = false -> le b a = true.
Hypothesis le_trans :
  forall a b c, le a b = true -> le b c = true -> le a c = true.

Lemma insert_sorted (x : A) (l : list A) :
  StronglySorted ordered l -> StronglySorted ordered (Py.insert le key x l).
Proof.
  induction 1 as [|y l Hl IH Hy]; simpl.
  - constructor; constructor.
  - destruct (le (key x) (key y)) eqn:E.
    + constructor; [constructor; assumption|].
      constructor; [exact E|].
      eapply Forall_impl; [|exact Hy].
      intros z Hz. unfold ordered in *. eapply le_trans; eassumption.
    + constructor; [exact IH|].
      apply (Permutation_Forall (Permutation_sym (insert_perm x l))).
      constructor; [apply le_total, E | exact Hy].
Qed.

Lemma sorted_sorted (l : list A) : StronglySorted ordered (Py.sorted le key l).
Proof.
  induction l as [|x l IH]; simpl.
  - constructor.
  - apply insert_sorted, IH.
Qed.

(** Stability: a group of elements that the order does not tell apart
    comes out in the order in which it went in. *)
Lemma insert_filter (p : A -> bool) (x : A) (l : list A) :
  (forall a b, p a = true -> p b = true -> le (key a) (key b) = true) ->
  filter p (Py.insert le key x l) = filter p (x :: l).
Proof.
  intro Hp. induction l as [|y l IH]; [reflexivity|].
  simpl. destruct (le (key x) (key y)) eqn:E; [reflexivity|].
  simpl in *. rewrite IH.
  destruct (p x) eqn:Px, (p y) eqn:Py; try reflexivity.
  rewrite (Hp x y Px Py) in E. discriminate.
Qed.

Lemma sorted_filter (p : A -> bool) (l : list A) :
  (forall a b, p a = true -> p b = true -> le (key a) (key b) = true) ->
  filter p (Py.sorted le key l) = filter p l.
Proof.
  intro Hp. induction l as [|x l IH]; [reflexivity|].
  simpl Py.sorted. rewrite insert_filter by exact Hp.
  simpl. now rewrite IH.
Qed.

End SortedFacts.

Lemma StronglySorted_weaken {A : Type} (R S : A -> A -> Prop) (l : list A) :
  (forall a b, R a b -> S a b) -> StronglySorted R l -> StronglySorted S l.
Proof.
  intros HRS. induction 1 as [|x l Hl IH Hx]; constructor.
  - exact IH.
  - eapply Forall_impl; [|exact Hx]. intros b. apply HRS.
Qed.

(** [enumerate] numbers the elements from 0. *)
Lemma enumerate_from_nth {A : Type} (l : list A) (i n : nat) :
  nth_error (Py.enumerate_from i l) n
  = option_map (fun x => (i + n, x)%nat) (nth_error l n).
Proof.
  revert i n. induction l as [|x l IH]; intros i [|n]; simpl; try reflexivity.
  - now rewrite Nat.add_0_r.
  - rewrite IH. now rewrite Nat.add_succ_r.
Qed.

Lemma enumerate_nth {A : Type} (l : list A) (n : nat) :
  nth_error (Py.enumerate l) n = option_map (fun x => (n, x)) (nth_error l n).
Proof. unfold Py.enumerate. now rewrite enumerate_from_nth. Qed.

Lemma enumerate_from_length {A : Type} (l : list A) (i : nat) :
  List.length (Py.enumerate_from i l) = List.length l.
Proof.
  revert i. induction l as [|x l IH]; intro i; simpl; [|rewrite IH]; reflexivity.
Qed.

(** ** The noise floor *)

Section NoiseFloorFacts.

Lemma gather_spec (lines : list (option Q)) :
  NoiseFloor.gather lines
  = filter (fun v => Py.ltb (-100) v) (ReportGen.present lines).
Proof.
  induction lines as [|[v|] rest IH]; simpl; try assumption.
  - reflexivity.
  - destruct (Py.ltb (-100) v); now rewrite IH.
Qed.

Lemma percentile_index_div (n : nat) :
  NoiseFloor.percentile_index n = (Z.of_nat n / 10)%Z.
Proof.
  unfold NoiseFloor.percentile_index, NoiseFloor.int_of_float.
  assert (Hfl : Qfloor (inject_Z (Z.of_nat n) * (1 # 10))
                = (Z.of_nat n / 10)%Z).
  { unfold Qfloor, Qmult, inject_Z. simpl Qnum. simpl Qden.
    now rewrite Z.mul_1_r. }
  assert (Hnn : Py.ltb (inject_Z (Z.of_nat n) * (1 # 10)) 0 = false).
  { apply ltb_false. apply Qmult_le_0_compat; [|discriminate].
    unfold Qle, inject_Z. simpl. lia. }
  rewrite Hnn, Hfl. apply Z.max_r. apply Z.div_pos; lia.
Qed.

Lemma percentile_index_floor (n : nat) :
  NoiseFloor.percentile_index n
  = Z.max 0 (Qfloor ((1 # 10) * inject_Z (Z.of_nat n))).
Proof.
  rewrite percentile_index_div.
  unfold Qfloor, Qmult, inject_Z. simpl Qnum. simpl Qden.
  rewrite Z.mul_1_l. symmetry. apply Z.max_r. apply Z.div_pos; lia.
Qed.

Lemma percentile_index_in_bounds (n : nat) :
  (0 < n)%nat -> (Z.to_nat (NoiseFloor.percentile_index n) < n)%nat.
Proof.
  intro Hn. rewrite percentile_index_div.
  assert (0 <= Z.of_nat n / 10 < Z.of_nat n)%Z.
  { split; [apply Z.div_pos; lia | apply Z.div_lt; lia]. }
  lia.
Qed.

(** C8.  The values not above -100 are discarded (a line that does not
    parse contributes nothing).  When nothing is left the estimate is
    exactly -60; otherwise the remaining values are sorted in ascending
    order and the estimate is the element at index
    [max(0, floor(0.1 * N))], an index that is inside the sorted list, so
    the lookup does not raise. *)
Theorem noise_floor_percentile (lines : list (option Q)) :
  let valid := NoiseFloor.gather lines in
  let N := List.length valid in
  let idx := Z.to_nat (Z.max 0 (Qfloor ((1 # 10) * inject_Z (Z.of_nat N)))) in
  valid = filter (fun v => Py.ltb (-100) v) (ReportGen.present lines)
  /\ Forall (fun v => -100 < v) valid
  /\ match valid with
     | [] => NoiseFloor.estimate_noise_floor lines = Ok (-60)
     | _ :: _ =>
         exists (ordered : list Q) (v : Q),
           ordered = NoiseFloor.sort_values valid
           /\ Permutation ordered valid
           /\ StronglySorted Qle ordered
           /\ (idx < List.length ordered)%nat
           /\ nth_error ordered idx = Some v
           /\ NoiseFloor.estimate_noise_floor lines = Ok v
     end.
Proof.
  intros valid N idx. split; [apply gather_spec|]. split.
  { subst valid. rewrite gather_spec. apply Forall_forall.
    intros v Hv. apply filter_In in Hv. now apply ltb_true. }
  destruct valid as [|v0 rest] eqn:Ev.
  - unfold NoiseFloor.estimate_noise_floor. subst valid. now rewrite Ev.
  - set (ordered := NoiseFloor.sort_values (v0 :: rest)).
    assert (Hlen : List.length ordered = N).
    { subst ordered N. unfold NoiseFloor.sort_values.
      now rewrite sorted_length. }
    assert (Hidx : idx = Z.to_nat (NoiseFloor.percentile_index N)).
    { subst idx. now rewrite percentile_index_floor. }
    assert (Hin : (idx < List.length ordered)%nat).
    { rewrite Hlen, Hidx. apply percentile_index_in_bounds.
      subst N. simpl. lia. }
    destruct (nth_error ordered idx) as [v|] eqn:En.
    2:{ apply nth_error_None in En. lia. }
    exists ordered, v. repeat split; try assumption.
    + apply sorted_perm.
    + subst ordered. unfold NoiseFloor.sort_values.
      eapply StronglySorted_weaken;
        [|apply sorted_sorted; [apply Qle_bool_total | apply Qle_bool_trans]].
      intros a b Hab. now apply Qle_bool_iff.
    + unfold NoiseFloor.estimate_noise_floor. subst valid. rewrite Ev.
      fold ordered. rewrite Hlen, <- Hidx, En. reflexivity.
Qed.

End NoiseFloorFacts.

(** ** The text normaliser *)

Section TextFacts.

Import Text.

Ltac by_cases_on c :=
  destruct c as [[] [] [] [] [] [] [] []]; vm_compute; try reflexivity;
  try discriminate; auto.

Lemma lower_char_idem (c : ascii) : lower_char (lower_char c) = lower_char c.
Proof. by_cases_on c. Qed.

Lemma word_not_space (c : ascii) : is_word c = true -> is_space c = false.
Proof. by_cases_on c. Qed.

Lemma word_alnum_or_underscore (c : ascii) :
  is_word c = true <-> is_alnum c = true \/ c = underscore.
Proof.
  split.
  - by_cases_on c.
  - intros [H|H]; [unfold is_word; now rewrite H | now subst c].
Qed.

Lemma space_only_blank (c : ascii) : c = space -> is_space c = true.
Proof. intro H. now subst c. Qed.

Lemma split_cons (c : ascii) (l : list ascii) :
  split (c :: l)
  = if is_space c then split l
    else if starts_blank l then [c] :: split l
    else cons_head c (split l).
Proof. destruct l; reflexivity. Qed.

Lemma cons_head_words (c : ascii) (ws : list (list ascii)) :
  is_space c = false -> Forall word ws -> Forall word (cons_head c ws).
Proof.
  intros Hc Hws. destruct Hws as [|w ws [Hne Hw] Hws]; simpl.
  - repeat constructor; [discriminate | assumption].
  - constructor; [|assumption]. split; [discriminate|].
    constructor; assumption.
Qed.

Lemma split_words (l : list ascii) : Forall word (split l).
Proof.
  induction l as [|c l IH]; [constructor|].
  rewrite split_cons. destruct (is_space c) eqn:Ec; [exact IH|].
  destruct (starts_blank l).
  - constructor; [|exact IH]. split; [discriminate|].
    repeat constructor. exact Ec.
  - now apply cons_head_words.
Qed.

Lemma concat_cons_head (c : ascii) (ws : list (list ascii)) :
  List.concat (cons_head c ws) = c :: List.concat ws.
Proof. destruct ws; reflexivity. Qed.

(** The words of a text, put end to end, are its non-blank characters. *)
Lemma concat_split (l : list ascii) :
  List.concat (split l) = filter (fun c => negb (is_space c)) l.
Proof.
  induction l as [|c l IH]; [reflexivity|].
  rewrite split_cons. simpl filter.
  destruct (is_space c) eqn:Ec; simpl; [exact IH|].
  destruct (starts_blank l); [simpl | rewrite concat_cons_head];
    now rewrite IH.
Qed.

Lemma join_cons (w : list ascii) (ws : list (list ascii)) :
  ws <> [] -> join (w :: ws) = w ++ space :: join ws.
Proof. destruct ws; [congruence | reflexivity]. Qed.

Lemma join_chars (ws : list (list ascii)) (c : ascii) :
  In c (join ws) -> c = space \/ In c (List.concat ws).
Proof.
  induction ws as [|w ws IH]; [intros []|].
  destruct ws as [|w' ws'].
  - simpl. rewrite app_nil_r. now right.
  - rewrite join_cons by discriminate. intro H.
    apply in_app_or in H. destruct H as [H|[H|H]].
    + right. simpl. apply in_or_app. now left.
    + left. now symmetry.
    + destruct (IH H) as [Hs|Hc]; [now left|].
      right. change (List.concat (w :: w' :: ws')) with (w ++ List.concat (w' :: ws')).
      apply in_or_app. now right.
Qed.

(** Dropping the blanks of the joined words gives the words end to end. *)
Lemma filter_join (ws : list (list ascii)) :
  Forall word ws ->
  filter (fun c => negb (is_space c)) (join ws) = List.concat ws.
Proof.
  induction 1 as [|w ws [Hne Hw] Hws IH]; [reflexivity|].
  assert (Hfw : filter (fun c => negb (is_space c)) w = w).
  { clear Hne. induction Hw as [|c w Hc Hw IHw]; [reflexivity|].
    simpl. rewrite Hc. simpl. now rewrite IHw. }
  destruct ws as [|w' ws'].
  - simpl. now rewrite app_nil_r.
  - rewrite join_cons by discriminate.
    rewrite filter_app, Hfw.
    change (filter (fun c => negb (is_space c)) (space :: join (w' :: ws')))
      with (filter (fun c => negb (is_space c)) (join (w' :: ws'))).
    now rewrite IH.
Qed.

Lemma join_head (w : list ascii) (ws : list (list ascii)) :
  Forall word (w :: ws) ->
  exists c rest, join (w :: ws) = c :: rest /\ is_space c = false.
Proof.
  intro H. inversion H as [|? ? [Hne Hw] Hws]; subst.
  destruct w as [|c w']; [congruence|].
  inversion Hw; subst.
  destruct ws as [|w2 ws'].
  - exists c, w'. now split.
  - exists c, (w' ++ space :: join (w2 :: ws')). now split.
Qed.

Lemma word_last (w : list ascii) :
  word w -> exists w' c, w = w' ++ [c] /\ is_space c = false.
Proof.
  intros [Hne Hw]. destruct (exists_last Hne) as [w' [c ->]].
  exists w', c. split; [reflexivity|].
  apply Forall_app in Hw. destruct Hw as [_ Hc]. now inversion Hc.
Qed.

(** Every blank of the joined words stands between two characters that
    are not blanks. *)
Lemma join_blanks (ws : list (list ascii)) :
  Forall word ws ->
  forall l1 l2 b, join ws = l1 ++ b :: l2 -> is_space b = true ->
    (exists l1' c, l1 = l1' ++ [c] /\ is_space c = false)
    /\ (exists d l2', l2 = d :: l2' /\ is_space d = false).
Proof.
  induction 1 as [|w ws Hw Hws IH]; intros l1 l2 b Heq Hb.
  - destruct l1; discriminate.
  - assert (Hin : forall t1 t2, w = t1 ++ b :: t2 -> False).
    { intros t1 t2 ->. destruct Hw as [_ Hw].
      apply Forall_app in Hw. destruct Hw as [_ Hw].
      inversion Hw; subst. congruence. }
    destruct ws as [|w2 ws'].
    + simpl in Heq. exfalso. exact (Hin _ _ Heq).
    + rewrite join_cons in Heq by discriminate.
      apply app_eq_app in Heq. destruct Heq as [t [[Hl Hr]|[Hl Hr]]].
      * (* [w = l1 ++ t] *)
        destruct t as [|a t'].
        -- rewrite app_nil_r in Hl. subst l1. cbn [app] in Hr.
           injection Hr as _ Hr. subst l2.
           split; [apply word_last, Hw|].
           destruct (join_head w2 ws' Hws) as [d [r [Hd Hsp]]].
           exists d, r. now split.
        -- cbn [app] in Hr. injection Hr as -> Hr.
           exfalso. exact (Hin _ _ Hl).
      * (* [l1 = w ++ t] *)
        destruct t as [|a t'].
        -- rewrite app_nil_r in Hl. subst l1. cbn [app] in Hr.
           injection Hr as _ Hr. subst l2.
           split; [apply word_last, Hw|].
           destruct (join_head w2 ws' Hws) as [d [r [Hd Hsp]]].
           exists d, r. now split.
        -- cbn [app] in Hr. injection Hr as <- Hr.
           destruct (IH t' l2 b Hr Hb)
             as [[l1' [c [Ht Hc]]] Hnext].
           split; [|exact Hnext].
           exists (w ++ space :: l1'), c. split; [|exact Hc].
           subst l1 t'. now rewrite <- app_assoc.
Qed.

(** Splitting the joined words gives the words back. *)
Lemma split_app_word (w rest : list ascii) :
  word w -> starts_blank rest = true ->
  split (w ++ rest) = w :: split rest.
Proof.
  intros [Hne Hw] Hrest. induction Hw as [|c w Hc Hw IHw]; [congruence|].
  simpl app. rewrite split_cons, Hc.
  destruct w as [|c2 w'].
  - simpl. now rewrite Hrest.
  - rewrite IHw by discriminate.
    inversion Hw; subst. simpl starts_blank.
    match goal with H : is_space c2 = false |- _ => rewrite H end.
    reflexivity.
Qed.

Lemma split_join (ws : list (list ascii)) :
  Forall word ws -> split (join ws) = ws.
Proof.
  induction 1 as [|w ws Hw Hws IH]; [reflexivity|].
  destruct ws as [|w2 ws'].
  - simpl. rewrite <- (app_nil_r w) at 1.
    now rewrite split_app_word.
  - rewrite join_cons by discriminate.
    rewrite split_app_word; [|exact Hw|reflexivity].
    rewrite split_cons. change (is_space space) with true. cbv iota.
    now rewrite IH.
Qed.

End TextFacts.

Section NormalizeFacts.

Import Text.

Lemma strip_then_drop_blanks (l : list ascii) :
  filter (fun c => negb (is_space c)) (strip_symbols l) = filter is_word l.
Proof.
  unfold strip_symbols. induction l as [|c l IH]; [reflexivity|].
  simpl. destruct (is_word c) eqn:Ew; simpl.
  - rewrite (word_not_space c Ew). simpl. now rewrite IH.
  - destruct (is_space c) eqn:Es; simpl; [rewrite Es; simpl|]; exact IH.
Qed.

Lemma normalize_chars_content (l : list ascii) :
  filter (fun c => negb (is_space c)) (normalize_chars l)
  = filter is_word (lower l).
Proof.
  unfold normalize_chars.
  rewrite filter_join by apply split_words.
  rewrite concat_split. apply strip_then_drop_blanks.
Qed.

Lemma normalize_chars_alphabet (l : list ascii) :
  Forall (fun c => c = space
                   \/ ((is_alnum c = true \/ c = underscore)
                       /\ lower_char c = c))
         (normalize_chars l).
Proof.
  apply Forall_forall. intros c Hc.
  apply join_chars in Hc. destruct Hc as [Hc|Hc]; [now left|right].
  rewrite concat_split, strip_then_drop_blanks in Hc.
  apply filter_In in Hc. destruct Hc as [Hin Hw].
  split; [now apply word_alnum_or_underscore|].
  unfold lower in Hin. apply in_map_iff in Hin.
  destruct Hin as [c0 [<- _]]. apply lower_char_idem.
Qed.

(** The shape of the normal form, for text over the code points
    U+0000..U+00FF.  [normalize_text] keeps, in order and in lower case,
    the characters that are alphanumeric or an underscore (the class
    [\w]) and deletes every other character that is not whitespace; the
    words of the result are the whitespace-separated runs of the kept
    characters; each is separated from the next by one space, and the
    result neither begins nor ends with a space. *)
Theorem normalize_text_shape (s : string) :
  let src := list_ascii_of_string s in
  let out := list_ascii_of_string (normalize_text s) in
  filter (fun c => negb (is_space c)) out
    = filter (fun c => is_alnum c || Ascii.eqb c underscore)
             (map lower_char src)
  /\ split out = split (strip_symbols (lower src))
  /\ Forall (fun c => c = space
                      \/ ((is_alnum c = true \/ c = underscore)
                          /\ lower_char c = c)) out
  /\ (forall l1 l2 b, out = l1 ++ b :: l2 -> is_space b = true ->
        b = space
        /\ (exists l1' c, l1 = l1' ++ [c] /\ is_space c = false)
        /\ (exists d l2', l2 = d :: l2' /\ is_space d = false)).
Proof.
  intros src out.
  assert (Hout : out = normalize_chars src).
  { subst out. unfold normalize_text.
    apply list_ascii_of_string_of_list_ascii. }
  rewrite Hout. split; [|split; [|split]].
  - rewrite normalize_chars_content. unfold lower.
    apply filter_ext. intro c. unfold is_word. f_equal.
    destruct c as [[] [] [] [] [] [] [] []]; reflexivity.
  - unfold normalize_chars. apply split_join, split_words.
  - apply normalize_chars_alphabet.
  - intros l1 l2 b Heq Hb. split.
    + pose proof (normalize_chars_alphabet src) as Hall.
      rewrite Forall_forall in Hall.
      destruct (Hall b) as [Hs|[[Ha|Hu] _]]; [| exact Hs | |].
      * rewrite Heq. apply in_or_app. right. now left.
      * assert (Hw : is_word b = true)
          by (apply word_alnum_or_underscore; now left).
        apply word_not_space in Hw. congruence.
      * subst b. discriminate Hb.
    + eapply join_blanks; [apply split_words | exact Heq | exact Hb].
Qed.

Lemma normalize_text_shape_witness :
  list_ascii_of_string (normalize_text "Hello,  World!")
  = list_ascii_of_string "hello" ++ space :: list_ascii_of_string "world"
  /\ (exists l1' c, list_ascii_of_string "hello" = l1' ++ [c]
                     /\ is_space c = false)
  /\ (exists d l2', list_ascii_of_string "world" = d :: l2'
                     /\ is_space d = false).
Proof.
  split; [reflexivity|].
  destruct (normalize_text_shape "Hello,  World!") as [_ [_ [_ H]]].
  apply (H (list_ascii_of_string "hello") (list_ascii_of_string "world")
           space eq_refl eq_refl).
Defined.

Lemma underscore_survives (s : string) :
  In underscore (list_ascii_of_string s) ->
  In underscore (list_ascii_of_string (normalize_text s)).
Proof.
  intro Hin. unfold normalize_text.
  rewrite list_ascii_of_string_of_list_ascii.
  assert (H : In underscore
                 (filter (fun c => negb (is_space c))
                         (normalize_chars (list_ascii_of_string s)))).
  { rewrite normalize_chars_content. apply filter_In. split; [|reflexivity].
    unfold lower. apply in_map_iff. exists underscore. now split. }
  now apply filter_In in H.
Qed.

(** C9.  The claim does not hold of the code.  The comment of
    [normalize_text] announces that punctuation is removed, and the
    hyphen of ["a-b"] is; the underscore of ["a_b"] is not, because the
    pattern [[^\w\s]] spares the whole class [\w], to which the
    underscore belongs.  The output then contains a character that is
    neither alphanumeric nor a space, and so does the output for every
    text with an underscore in it. *)
Theorem normalize_text_keeps_underscore :
  normalize_text "a_b" = "a_b"%string
  /\ normalize_text "a-b" = "ab"%string
  /\ is_alnum underscore = false
  /\ is_space underscore = false
  /\ ~ Forall (fun c => c = space \/ is_alnum c = true)
              (list_ascii_of_string (normalize_text "a_b"))
  /\ (forall s, In underscore (list_ascii_of_string s) ->
                In underscore (list_ascii_of_string (normalize_text s))).
Proof.
  split; [reflexivity|]. split; [reflexivity|].
  split; [reflexivity|]. split; [reflexivity|]. split.
  - intro H. apply Forall_forall with (x := underscore) in H.
    + destruct H as [H|H]; discriminate H.
    + vm_compute. right. now left.
  - apply underscore_survives.
Qed.

(** The first property test of the specification. *)
Lemma normalize_hello_world :
  normalize_text "Hello, World!" = normalize_text "hello world".
Proof. reflexivity. Qed.

(** X13.  Normalising a normalised text changes nothing. *)
Lemma normalize_text_idempotent (s : string) :
  normalize_text (normalize_text s) = normalize_text s.
Proof.
  unfold normalize_text. f_equal.
  rewrite list_ascii_of_string_of_list_ascii.
  set (l := list_ascii_of_string s).
  unfold normalize_chars at 1.
  assert (Hkeep : strip_symbols (lower (normalize_chars l)) = normalize_chars l).
  { pose proof (normalize_chars_alphabet l) as Hall.
    induction Hall as [|c r Hc Hr IH]; [reflexivity|].
    unfold strip_symbols, lower in *. simpl.
    assert (Hl : lower_char c = c).
    { destruct Hc as [->|[_ Hc]]; [reflexivity | exact Hc]. }
    rewrite Hl.
    assert (Hk : is_word c || is_space c = true).
    { destruct Hc as [->|[Hc _]]; [reflexivity|].
      apply word_alnum_or_underscore in Hc. now rewrite Hc. }
    rewrite Hk. now rewrite IH. }
  rewrite Hkeep. unfold normalize_chars.
  now rewrite split_join by apply split_words.
Qed.

End NormalizeFacts.


(** ** The report *)

Section RankingFacts.

Import ReportGen.

Lemma geb_total (a b : Q) : Py.geb a b = false -> Py.geb b a = true.
Proof. unfold Py.geb. apply Qle_bool_total. Qed.

Lemma geb_trans (a b c : Q) :
  Py.geb a b = true -> Py.geb b c = true -> Py.geb a c = true.
Proof. unfold Py.geb. intros H1 H2. eapply Qle_bool_trans; eassumption. Qed.

Lemma by_quality_perm (evs : list SampleEvaluation) :
  Permutation (by_quality evs) evs.
Proof. apply sorted_perm. Qed.

Lemma by_quality_descending (evs : list SampleEvaluation) :
  StronglySorted
    (fun a b => audio_quality_score b <= audio_quality_score a)
    (by_quality evs).
Proof.
  eapply StronglySorted_weaken;
    [|apply sorted_sorted; [apply geb_total | apply geb_trans]].
  intros a b H. now apply geb_true.
Qed.

Lemma by_quality_stable (evs : list SampleEvaluation) (s : Q) :
  filter (fun e => Qeq_bool (audio_quality_score e) s) (by_quality evs)
  = filter (fun e => Qeq_bool (audio_quality_score e) s) evs.
Proof.
  apply sorted_filter. intros a b Ha Hb.
  apply Qeq_bool_iff in Ha, Hb. apply geb_true.
  rewrite Ha, Hb. apply Qle_refl.
Qed.

Lemma before_score (a b : SampleEvaluation) :
  before_by_score_then_id a b ->
  audio_quality_score b <= audio_quality_score a.
Proof.
  intros [H|[H _]]; [now apply Qlt_le_weak | rewrite H; apply Qle_refl].
Qed.

Lemma insert_by_score_then_id (x : SampleEvaluation)
    (l : list SampleEvaluation) :
  StronglySorted before_by_score_then_id l ->
  Forall (fun z => (sample_id x <= sample_id z)%Z) l ->
  StronglySorted before_by_score_then_id
    (Py.insert (fun a b => Py.geb a b) audio_quality_score x l).
Proof.
  induction 1 as [|y l Hl IH Hy]; intro Hid; simpl.
  - constructor; constructor.
  - inversion Hid as [|? ? Hxy Hxl]; subst.
    destruct (Py.geb (audio_quality_score x) (audio_quality_score y)) eqn:E.
    + apply geb_true in E.
      constructor; [constructor; assumption|].
      assert (Hall : forall z, In z (y :: l) ->
                audio_quality_score z <= audio_quality_score x).
      { intros z [<-|Hz]; [exact E|].
        rewrite Forall_forall in Hy.
        eapply Qle_trans; [apply before_score, Hy, Hz | exact E]. }
      apply Forall_forall. intros z Hz.
      destruct (Qlt_le_dec (audio_quality_score z) (audio_quality_score x))
        as [Hlt|Hge]; [now left | right].
      split; [apply Qle_antisym; [exact Hge | now apply Hall]|].
      rewrite Forall_forall in Hid. now apply Hid.
    + constructor; [now apply IH|].
      apply (Permutation_Forall (Permutation_sym (insert_perm _ _ x l))).
      constructor; [|exact Hy].
      left. apply ltb_true. unfold Py.ltb, Py.geb in *. now rewrite E.
Qed.

Lemma by_quality_ties_by_id (evs : list SampleEvaluation) :
  StronglySorted (fun a b => (sample_id a <= sample_id b)%Z) evs ->
  StronglySorted before_by_score_then_id (by_quality evs).
Proof.
  induction 1 as [|x l Hl IH Hx]; [constructor|].
  unfold by_quality. simpl. apply insert_by_score_then_id; [exact IH|].
  apply (Permutation_Forall (Permutation_sym (sorted_perm _ _ l))).
  exact Hx.
Qed.

Lemma map_enumerate_from {A B C : Type} (f : nat * A -> B) (g : B -> C)
    (h : A -> C) (l : list A) (i : nat) :
  (forall n x, g (f (n, x)) = h x) ->
  map g (map f (Py.enumerate_from i l)) = map h l.
Proof.
  intro H. revert i. induction l as [|x l IH]; intro i; [reflexivity|].
  simpl. now rewrite H, IH.
Qed.

Lemma nth_error_ranking {A B : Type} (f : nat * A -> B) (l : list A) (i : nat) :
  nth_error (map f (Py.enumerate l)) i
  = option_map (fun x => f (i, x)) (nth_error l i).
Proof.
  rewrite nth_error_map, enumerate_nth. now destruct (nth_error l i).
Qed.

Lemma generate_report_rankings (k : option string)
    (evs : list SampleEvaluation) (ref : string) (r : Report) :
  generate_report k evs ref = Ok r ->
  by_audio_quality (rankings r) = quality_ranking evs
  /\ by_local_whisper_wer (rankings r) = wer_ranking local_service evs
  /\ by_openai_whisper_wer (rankings r)
     = match by_wer openai_service evs with
       | [] => None
       | _ :: _ => Some (wer_ranking openai_service evs)
       end
  /\ detailed_results r = map detailed evs
  /\ openai_api_available (summary r) = api_available k.
Proof.
  unfold generate_report. destruct (categories evs) as [cats|e]; simpl.
  - intro H. injection H as <-. simpl. repeat split.
  - discriminate.
Qed.

(** C4, as the code has it.  When a report is generated, its
    [by_audio_quality] ranking lists every sample once, in descending
    order of [audio_quality_score]; samples of equal score stay in the
    order they have in the evaluation list (the sort is stable and has no
    second key), which is ascending [sample_id] whenever that list is in
    ascending [sample_id] order; the rank of an entry is its position
    counted from 1. *)
Theorem quality_ranking_order (k : option string)
    (evs : list SampleEvaluation) (ref : string) (r : Report) :
  generate_report k evs ref = Ok r ->
  let ranked := by_quality evs in
  let entries := by_audio_quality (rankings r) in
  Permutation ranked evs
  /\ StronglySorted
       (fun a b => audio_quality_score b <= audio_quality_score a) ranked
  /\ (forall s,
        filter (fun e => Qeq_bool (audio_quality_score e) s) ranked
        = filter (fun e => Qeq_bool (audio_quality_score e) s) evs)
  /\ (StronglySorted (fun a b => (sample_id a <= sample_id b)%Z) evs ->
      StronglySorted before_by_score_then_id ranked)
  /\ map q_sample_id entries = map sample_id ranked
  /\ (forall i,
        nth_error entries i
        = option_map
            (fun e => {| q_rank := i + 1;
                         q_sample_id := sample_id e;
                         q_microphone := microphone_name e;
                         q_category := category (microphone e);
                         q_score := Py.round (audio_quality_score e) 1 |})
            (nth_error ranked i)).
Proof.
  intros Hr ranked entries.
  apply generate_report_rankings in Hr. destruct Hr as [Hq _].
  subst entries. rewrite Hq. unfold quality_ranking. fold ranked.
  split; [apply by_quality_perm|].
  split; [apply by_quality_descending|].
  split; [apply by_quality_stable|].
  split; [apply by_quality_ties_by_id|].
  split.
  - unfold Py.enumerate. now apply map_enumerate_from.
  - intro i. apply nth_error_ranking.
Qed.

(** An instance: the two samples of [Examples.ranked], given in id order. *)
Lemma quality_ranking_order_witness :
  exists r,
    generate_report None Examples.ranked "" = Ok r
    /\ map q_sample_id (by_audio_quality (rankings r)) = [2%Z; 1%Z]
    /\ StronglySorted before_by_score_then_id (by_quality Examples.ranked).
Proof.
  destruct (generate_report None Examples.ranked "") as [r|e] eqn:E;
    [|vm_compute in E; discriminate E].
  exists r.
  destruct (quality_ranking_order None Examples.ranked "" r E)
    as [_ [_ [_ [Hid [Hmap _]]]]].
  split; [reflexivity|]. split.
  - rewrite Hmap. reflexivity.
  - apply Hid. repeat constructor; simpl; lia.
Defined.

(** C4, as stated, fails on two samples of equal score listed with the
    higher id first: the ranking keeps that order. *)
Lemma quality_ranking_tie_keeps_input_order :
  exists r,
    generate_report None Examples.tied "" = Ok r
    /\ map (fun en => (q_rank en, q_sample_id en))
           (by_audio_quality (rankings r))
       = [(1%nat, 2%Z); (2%nat, 1%Z)]
    /\ ~ StronglySorted before_by_score_then_id (by_quality Examples.tied).
Proof.
  eexists. split; [vm_compute; reflexivity|]. split; [reflexivity|].
  intro H. vm_compute in H. inversion H as [|a l _ Hall]; subst.
  inversion Hall as [|b l' Hab _]; subst.
  destruct Hab as [Hlt|[_ Hle]].
  - vm_compute in Hlt. discriminate Hlt.
  - vm_compute in Hle. apply Hle. reflexivity.
Qed.

End RankingFacts.

Section WerRankingFacts.

Import ReportGen.

Lemma has_service_wer (svc : string) (e : SampleEvaluation) :
  has_service svc e = true -> service_wer svc e = Some (wer_key svc e).
Proof.
  unfold has_service, wer_key, service_wer. intro H.
  apply existsb_exists in H. destruct H as [t [Hin Ht]].
  destruct (find (fun t => String.eqb (service t) svc) (transcriptions e))
    as [t'|] eqn:E; [reflexivity|].
  exfalso. pose proof (find_none _ _ E t Hin) as Hn. simpl in Hn. congruence.
Qed.

Lemma service_wer_has (svc : string) (e : SampleEvaluation) (x : Q) :
  service_wer svc e = Some x -> has_service svc e = true.
Proof.
  unfold has_service, service_wer. intro H.
  destruct (find (fun t => String.eqb (service t) svc) (transcriptions e))
    as [t|] eqn:E; [|discriminate].
  apply find_some in E. apply existsb_exists. now exists t.
Qed.

Lemma by_wer_perm (svc : string) (evs : list SampleEvaluation) :
  Permutation (by_wer svc evs) (filter (has_service svc) evs).
Proof. apply sorted_perm. Qed.

Lemma by_wer_ascending (svc : string) (evs : list SampleEvaluation) :
  StronglySorted (fun a b => wer_key svc a <= wer_key svc b) (by_wer svc evs).
Proof.
  eapply StronglySorted_weaken;
    [|apply sorted_sorted; [apply Qle_bool_total | apply Qle_bool_trans]].
  intros a b H. now apply Qle_bool_iff.
Qed.

Lemma by_wer_members (svc : string) (evs : list SampleEvaluation)
    (e : SampleEvaluation) :
  In e (by_wer svc evs) <-> In e evs /\ has_service svc e = true.
Proof.
  unfold by_wer. rewrite sorted_In. apply filter_In.
Qed.

Lemma by_wer_nonempty (svc : string) (evs : list SampleEvaluation) :
  by_wer svc evs <> [] <-> exists e, In e evs /\ has_service svc e = true.
Proof.
  split.
  - destruct (by_wer svc evs) as [|e l] eqn:E; [congruence|].
    intros _. exists e. apply by_wer_members. rewrite E. now left.
  - intros [e He] Hnil. apply by_wer_members in He.
    rewrite Hnil in He. exact He.
Qed.

(** C5, as the code has it.  In a generated report the ranking of the
    cloud backend is present exactly when some sample has a result of that
    backend, while the ranking of the local backend is always present (and
    empty when no sample has a local result).  A ranking that is present
    lists exactly the samples that have a result of its backend, in
    ascending order of that backend's WER, ranked from 1. *)
Theorem wer_rankings (k : option string)
    (evs : list SampleEvaluation) (ref : string) (r : Report) :
  generate_report k evs ref = Ok r ->
  (wer_section openai_service (rankings r) <> None
   <-> exists e, In e evs /\ has_service openai_service e = true)
  /\ wer_section local_service (rankings r)
     = Some (by_local_whisper_wer (rankings r))
  /\ (forall svc entries,
        wer_section svc (rankings r) = Some entries ->
        let ranked := by_wer svc evs in
        (forall e, In e ranked <-> In e evs /\ has_service svc e = true)
        /\ Permutation ranked (filter (has_service svc) evs)
        /\ StronglySorted (fun a b => wer_key svc a <= wer_key svc b) ranked
        /\ Forall (fun e => service_wer svc e = Some (wer_key svc e)) ranked
        /\ map w_sample_id entries = map sample_id ranked
        /\ (forall i,
              nth_error entries i
              = option_map
                  (fun e => {| w_rank := i + 1;
                               w_sample_id := sample_id e;
                               w_microphone := microphone_name e;
                               w_wer_percent :=
                                 Py.round (wer_key svc e * 100) 2 |})
                  (nth_error ranked i))).
Proof.
  intro Hr. apply generate_report_rankings in Hr.
  destruct Hr as [_ [Hl [Ho _]]].
  split; [|split].
  - unfold wer_section. simpl. rewrite Ho.
    rewrite <- by_wer_nonempty.
    destruct (by_wer openai_service evs); split; congruence.
  - reflexivity.
  - intros svc entries Hs ranked.
    assert (He : entries = wer_ranking svc evs).
    { unfold wer_section in Hs.
      destruct (String.eqb svc local_service) eqn:E1.
      - apply String.eqb_eq in E1. subst svc. congruence.
      - destruct (String.eqb svc openai_service) eqn:E2; [|discriminate].
        apply String.eqb_eq in E2. subst svc. rewrite Ho in Hs.
        destruct (by_wer openai_service evs); congruence. }
    subst entries. unfold wer_ranking. fold ranked.
    split; [apply by_wer_members|].
    split; [apply by_wer_perm|].
    split; [apply by_wer_ascending|].
    split; [|split].
    + apply Forall_forall. intros e Hin.
      apply by_wer_members in Hin. now apply has_service_wer.
    + unfold Py.enumerate. now apply map_enumerate_from.
    + intro i. apply nth_error_ranking.
Qed.

Lemma wer_rankings_witness :
  exists r,
    generate_report None Examples.ranked "" = Ok r
    /\ (exists e, In e Examples.ranked
                  /\ has_service openai_service e = true)
    /\ map w_sample_id (by_local_whisper_wer (rankings r)) = [2%Z; 1%Z].
Proof.
  destruct (generate_report None Examples.ranked "") as [r|e] eqn:E;
    [|vm_compute in E; discriminate E].
  exists r.
  destruct (wer_rankings None Examples.ranked "" r E) as [Ho [Hl Hall]].
  split; [reflexivity|]. split.
  - apply Ho. vm_compute in E. injection E as <-. discriminate.
  - destruct (Hall local_service _ Hl) as [_ [_ [_ [_ [Hmap _]]]]].
    rewrite Hmap. reflexivity.
Defined.

(** C5, as stated, fails for the local backend: with no sample at all the
    report still has the local ranking (an empty list), and only the cloud
    ranking is left out. *)
Lemma local_ranking_present_without_results :
  exists r,
    generate_report None [] "" = Ok r
    /\ wer_section local_service (rankings r) = Some []
    /\ wer_section openai_service (rankings r) = None
    /\ ~ (wer_section local_service (rankings r) <> None
          <-> exists e, In e [] /\ has_service local_service e = true).
Proof.
  eexists. split; [vm_compute; reflexivity|].
  split; [reflexivity|]. split; [reflexivity|].
  intros [H _]. destruct H as [e [[] _]]. discriminate.
Qed.

End WerRankingFacts.

Section DeterminismFacts.

Import ReportGen.

(** C7, as the code has it.  Report generation reads the environment
    in one place only.  For the same evaluation list and reference text,
    two runs with any two values of [OPENAI_API_KEY] either both raise the
    same exception or both produce a report, and the two reports have the
    same rankings, the same category analysis, the same detailed results
    and the same counts in the summary; the one field that can differ is
    [summary.openai_api_available], which tells whether the variable is
    set.  So when the two environments agree on that, the reports are
    identical. *)
Theorem report_determined_by_inputs_and_key (k1 k2 : option string)
    (evs : list SampleEvaluation) (ref : string) :
  match generate_report k1 evs ref with
  | Ok r1 =>
      exists r2,
        generate_report k2 evs ref = Ok r2
        /\ rankings r2 = rankings r1
        /\ category_analysis r2 = category_analysis r1
        /\ detailed_results r2 = detailed_results r1
        /\ total_samples (summary r2) = total_samples (summary r1)
        /\ reference_text_words (summary r2)
           = reference_text_words (summary r1)
        /\ openai_api_available (summary r1) = api_available k1
        /\ openai_api_available (summary r2) = api_available k2
        /\ (api_available k1 = api_available k2 -> r2 = r1)
  | Raise x => generate_report k2 evs ref = Raise x
  end.
Proof.
  unfold generate_report. destruct (categories evs) as [cats|x]; simpl.
  - eexists. split; [reflexivity|]. simpl.
    repeat split. intro H. now rewrite H.
  - reflexivity.
Qed.

Lemma report_determined_by_inputs_and_key_witness :
  exists r1 r2,
    generate_report None Examples.ranked "coffee" = Ok r1
    /\ generate_report (Some "sk-a"%string) Examples.ranked "coffee" = Ok r2
    /\ rankings r2 = rankings r1
    /\ category_analysis r2 = category_analysis r1
    /\ detailed_results r2 = detailed_results r1
    /\ openai_api_available (summary r1) = false
    /\ openai_api_available (summary r2) = true.
Proof.
  pose proof (report_determined_by_inputs_and_key
                None (Some "sk-a"%string) Examples.ranked "coffee") as H.
  destruct (generate_report None Examples.ranked "coffee") as [r1|x] eqn:E;
    [|vm_compute in E; discriminate E].
  destruct H as [r2 [H2 [Hr [Hc [Hd [_ [_ [Ha1 [Ha2 _]]]]]]]]].
  exists r1, r2. repeat split; assumption.
Defined.

(** C7, as stated, fails: the same evaluation list and reference text give
    two different reports when the environment variable is set in one run
    and not in the other. *)
Lemma report_depends_on_environment :
  generate_report None Examples.ranked "coffee"
  <> generate_report (Some "sk-a"%string) Examples.ranked "coffee"
  /\ (exists r1 r2,
        generate_report None Examples.ranked "coffee" = Ok r1
        /\ generate_report (Some "sk-a"%string) Examples.ranked "coffee" = Ok r2
        /\ openai_api_available (summary r1) = false
        /\ openai_api_available (summary r2) = true).
Proof.
  split.
  - intro H. vm_compute in H. discriminate H.
  - do 2 eexists. split; [vm_compute; reflexivity|].
    split; [vm_compute; reflexivity|]. split; reflexivity.
Qed.

End DeterminismFacts.

Section CategoryFacts.

Import ReportGen.

Lemma add_to_group_keys (cat : string) (sid : Z)
    (groups : list (string * list Z)) (c : string) :
  In c (map fst (add_to_group cat sid groups))
  <-> c = cat \/ In c (map fst groups).
Proof.
  induction groups as [|[c0 ids] rest IH]; simpl.
  - intuition congruence.
  - destruct (String.eqb c0 cat) eqn:E; simpl.
    + apply String.eqb_eq in E. subst c0. intuition congruence.
    + rewrite IH. intuition congruence.
Qed.

Lemma fold_groups_keys (evs : list SampleEvaluation)
    (groups : list (string * list Z)) (c : string) :
  In c (map fst (fold_left
                   (fun g e => add_to_group (group_key e) (sample_id e) g)
                   evs groups))
  <-> In c (map fst groups) \/ exists e, In e evs /\ group_key e = c.
Proof.
  revert groups. induction evs as [|e evs IH]; intro groups; simpl.
  - split; [now left | intros [H|[e [[] _]]]; exact H].
  - rewrite IH, add_to_group_keys. split.
    + intros [[->|H]|[e' [Hin He]]].
      * right. exists e. now split; [left|].
      * now left.
      * right. exists e'. now split; [right|].
    + intros [H|[e' [[<-|Hin] He]]].
      * left. now right.
      * left. left. now symmetry.
      * right. now exists e'.
Qed.

(** The keys of [categories] are the grouping keys of the samples. *)
Lemma group_samples_keys (evs : list SampleEvaluation) (c : string) :
  In c (map fst (group_samples evs)) <-> exists e, In e evs /\ group_key e = c.
Proof.
  unfold group_samples. rewrite fold_groups_keys. simpl. tauto.
Qed.

Lemma map_result_raise {A B : Type} (f : A -> result B) (l : list A)
    (x : A) (e : exn) :
  (forall y, In y l -> f y = Raise e \/ exists b, f y = Ok b) ->
  In x l -> f x = Raise e ->
  map_result f l = Raise e.
Proof.
  induction l as [|y l IH]; intros Hall Hin Hx; [destruct Hin|].
  simpl. destruct (Hall y (or_introl eq_refl)) as [Hy|[b Hy]]; rewrite Hy; simpl.
  - reflexivity.
  - destruct Hin as [->|Hin]; [congruence|].
    rewrite IH; [reflexivity | | exact Hin | exact Hx].
    intros z Hz. apply Hall. now right.
Qed.

Lemma category_stats_outcome (evs : list SampleEvaluation)
    (g : string * list Z) :
  category_stats evs g = Raise ZeroDivisionError
  \/ exists b, category_stats evs g = Ok b.
Proof.
  destruct g as [cat ids]. unfold category_stats, mean.
  destruct (map audio_quality_score (filter (in_category cat) evs));
    simpl; [now left | right; eexists; reflexivity].
Qed.

(** The defect in general: the groups are keyed with the default
    ["unknown"], their members are looked up without it.  A sample without
    a category therefore opens a group whose member list is empty, unless
    some sample carries the literal category ["unknown"], and the mean of
    the empty list divides by zero. *)
Lemma categories_raise (evs : list SampleEvaluation) :
  (exists e, In e evs /\ category (microphone e) = None) ->
  (forall e, In e evs -> category (microphone e) <> Some "unknown"%string) ->
  categories evs = Raise ZeroDivisionError.
Proof.
  intros [e [Hin Hnone]] Hno.
  assert (Hkey : In "unknown"%string (map fst (group_samples evs))).
  { apply group_samples_keys. exists e. split; [exact Hin|].
    unfold group_key. now rewrite Hnone. }
  apply in_map_iff in Hkey. destruct Hkey as [[c ids] [Hc Hg]].
  simpl in Hc. subst c.
  unfold categories.
  apply map_result_raise with (x := ("unknown"%string, ids)); [|exact Hg|].
  - intros y _. apply category_stats_outcome.
  - unfold category_stats.
    assert (Hempty : filter (in_category "unknown") evs = []).
    { clear Hg Hin. induction evs as [|a evs IH]; [reflexivity|].
      simpl. assert (Ha : in_category "unknown" a = false).
      { unfold in_category.
        destruct (category (microphone a)) as [c|] eqn:Ec; [|reflexivity].
        destruct (String.eqb c "unknown") eqn:E; [|reflexivity].
        apply String.eqb_eq in E. subst c.
        exfalso. apply (Hno a (or_introl eq_refl)). exact Ec. }
      rewrite Ha. apply IH. intros b Hb. apply Hno. now right. }
    rewrite Hempty. reflexivity.
Qed.

(** The statistics of a group that has members: the two means of the
    claim, the second being absent when no member has a local result. *)
Lemma category_stats_members (evs : list SampleEvaluation)
    (cat : string) (ids : list Z) :
  let members := filter (in_category cat) evs in
  let wers := present (map (service_wer local_service) members) in
  members <> [] ->
  exists d,
    category_stats evs (cat, ids) = Ok (cat, d)
    /\ samples d = ids
    /\ avg_quality d
       = Py.sum (map audio_quality_score members)
         / inject_Z (Z.of_nat (List.length members))
    /\ (wers = [] -> avg_wer d = None)
    /\ (wers <> [] ->
        avg_wer d
        = Some (Py.sum wers / inject_Z (Z.of_nat (List.length wers)))).
Proof.
  intros members wers Hne. unfold category_stats. fold members. fold wers.
  unfold mean. rewrite length_map.
  destruct members as [|m ms] eqn:Em; [congruence|]. simpl map. cbv iota.
  simpl bind. eexists. split; [reflexivity|]. simpl.
  repeat split.
  - intros ->. reflexivity.
  - intro Hw. destruct wers; [congruence | reflexivity].
Qed.

(** C10.  The claim does not hold of the code.  A single sample whose
    microphone has no [category] entry makes report generation raise
    [ZeroDivisionError]: its group, keyed ["unknown"], has the sample in
    its [samples] list but no member when the averages are taken.  With a
    second sample labelled ["unknown"] by hand the group lists both ids
    while [avg_quality] is the score of the second sample alone (90, not
    the mean 70 of the group's samples). *)
Theorem category_average_ignores_default_key :
  group_samples Examples.uncategorised = [("unknown"%string, [1%Z])]
  /\ generate_report None Examples.uncategorised "" = Raise ZeroDivisionError
  /\ (exists d,
        categories Examples.mixed_unknown = Ok [("unknown"%string, d)]
        /\ samples d = [1%Z; 2%Z]
        /\ avg_quality d == 90
        /\ ~ avg_quality d == (50 + 90) / 2).
Proof.
  split; [reflexivity|]. split; [reflexivity|].
  eexists. split; [vm_compute; reflexivity|].
  split; [reflexivity|]. split; [reflexivity|].
  intro H. discriminate H.
Qed.

End CategoryFacts.

(** ** The evaluation loop of [main] *)

Section LoopFacts.

Import Main.

Variable w : World.
Variable reference_text : string.

(** The loop, started from any state, when no evaluation raises. *)
Lemma evaluate_each_ok (todo : list Sample)
    (st : list SampleEvaluation * list Notice) :
  (forall s, In s todo -> file_exists w (s_filename s) = true ->
     is_ok (Evaluate.evaluate_sample w s reference_text) = true) ->
  exists evs,
    evaluate_each w reference_text todo st
    = Ok (fst st ++ evs,
          snd st ++ map (fun s => Skipping (id s) (s_filename s))
                        (filter (fun s => negb (file_exists w (s_filename s)))
                                todo))
    /\ Forall2 (fun s e => Evaluate.evaluate_sample w s reference_text = Ok e)
               (filter (fun s => file_exists w (s_filename s)) todo) evs.
Proof.
  revert st. induction todo as [|s todo IH]; intros st Hok.
  - exists []. simpl. rewrite !app_nil_r. destruct st. split; [reflexivity|].
    constructor.
  - simpl. destruct (file_exists w (s_filename s)) eqn:Ef.
    + pose proof (Hok s (or_introl eq_refl) Ef) as Hs.
      destruct (Evaluate.evaluate_sample w s reference_text) as [e|x] eqn:Ee;
        [|discriminate Hs].
      simpl.
      destruct (IH (fst st ++ [e], snd st)) as [evs [Hrun Hall]].
      { intros s' Hin. apply Hok. now right. }
      exists (e :: evs). split.
      * rewrite Hrun. simpl. now rewrite <- app_assoc.
      * constructor; assumption.
    + simpl.
      destruct (IH (fst st, snd st ++ [Skipping (id s) (s_filename s)]))
        as [evs [Hrun Hall]].
      { intros s' Hin. apply Hok. now right. }
      exists evs. split.
      * rewrite Hrun. simpl. now rewrite <- app_assoc.
      * exact Hall.
Qed.

(** An exception raised for a sample whose file exists ends the loop. *)
Lemma evaluate_each_raises (todo : list Sample)
    (st : list SampleEvaluation * list Notice) (s : Sample) (x : exn) :
  In s todo -> file_exists w (s_filename s) = true ->
  Evaluate.evaluate_sample w s reference_text = Raise x ->
  is_ok (evaluate_each w reference_text todo st) = false.
Proof.
  revert st. induction todo as [|s' todo IH]; intros st Hin Hex Hs;
    [destruct Hin|].
  simpl. destruct Hin as [->|Hin].
  - rewrite Hex, Hs. reflexivity.
  - destruct (file_exists w (s_filename s')); [|now apply IH].
    destruct (Evaluate.evaluate_sample w s' reference_text); simpl;
      [now apply IH | reflexivity].
Qed.

Lemma evaluate_sample_id (s : Sample) (e : SampleEvaluation) :
  Evaluate.evaluate_sample w s reference_text = Ok e -> sample_id e = id s.
Proof.
  unfold Evaluate.evaluate_sample.
  destruct (Metrics.analyze_audio_metrics w (s_filename s)); simpl;
    [|discriminate].
  destruct (Evaluate.key_configured w).
  - destruct (Evaluate.transcribe_with_openai w (s_filename s)); simpl;
      [|discriminate].
    intro H. injection H as <-. reflexivity.
  - simpl. intro H. injection H as <-. reflexivity.
Qed.

(** A failing probe makes the evaluation of the sample raise. *)
Lemma evaluate_sample_probe_raises (s : Sample) (x : exn) :
  ffprobe w (s_filename s) = Raise x ->
  Evaluate.evaluate_sample w s reference_text = Raise x.
Proof.
  intro H. unfold Evaluate.evaluate_sample, Metrics.analyze_audio_metrics.
  rewrite H. reflexivity.
Qed.

End LoopFacts.

Section SkipFacts.

Import Main.

(** C6, as stated, fails when the file exists and cannot be probed: the
    exception raised for [a.wav] is not caught anywhere and ends the run,
    so the two samples that follow are never evaluated and no report is
    written. *)
Lemma probe_failure_aborts_run :
  let w := Examples.machine Examples.everywhere Examples.is_a_wav None in
  Evaluate.evaluate_sample w (Examples.sample_of 1 "a.wav") "coffee"
    = Raise JSONDecodeError
  /\ is_ok (Evaluate.evaluate_sample w (Examples.sample_of 2 "b.wav") "coffee")
     = true
  /\ evaluate_each w "coffee" Examples.ordered_metadata ([], [])
     = Raise JSONDecodeError
  /\ main w Examples.plain_args Examples.ordered_metadata "coffee"
     = Raise JSONDecodeError.
Proof.
  repeat split; reflexivity.
Qed.

End SkipFacts.

(** ** Merge mode *)

Section RoundFacts.

(** Rounding a number that already is a multiple of [10^-n] changes
    nothing, not even its representation. *)
Lemma round_of_multiple (k : Z) (n : nat) :
  Py.round (k # Py.pow10 n) n = k # Py.pow10 n.
Proof.
  unfold Py.round. set (p := Py.pow10 n).
  assert (Hf : Qfloor ((k # p) * inject_Z (Zpos p)) = k).
  { unfold Qfloor, Qmult, inject_Z. simpl Qnum. simpl Qden.
    rewrite Pos.mul_1_r. apply Z.div_mul. discriminate. }
  rewrite Hf.
  assert (Hr : (k # p) * inject_Z (Zpos p) - inject_Z k == 0).
  { unfold Qeq, Qminus, Qplus, Qopp, Qmult, inject_Z. simpl Qnum. simpl Qden.
    rewrite !Pos.mul_1_r. ring. }
  assert (Hlt : Py.ltb ((k # p) * inject_Z (Zpos p) - inject_Z k) (1 # 2) = true).
  { apply ltb_true. rewrite Hr. reflexivity. }
  now rewrite Hlt.
Qed.

Lemma round_idempotent (x : Q) (n : nat) :
  Py.round (Py.round x n) n = Py.round x n.
Proof.
  unfold Py.round at 2. apply round_of_multiple.
Qed.

(** Reading back an entry that [generate_report] wrote and writing it
    again gives the same entry. *)
Lemma detailed_round_trip (e : SampleEvaluation) :
  ReportGen.detailed (Main.existing_eval (ReportGen.detailed e))
  = ReportGen.detailed e.
Proof.
  unfold ReportGen.detailed, Main.existing_eval. simpl.
  now rewrite round_idempotent.
Qed.


End RoundFacts.

Section MergeFacts.

Import Main.



Lemma evaluate_each_with_results_file (w : World) (saved : option Report)
    (reference_text : string) (todo : list Sample)
    (st : list SampleEvaluation * list Notice) :
  evaluate_each (with_results_file w saved) reference_text todo st
  = evaluate_each w reference_text todo st.
Proof.
  revert st. induction todo as [|s todo IH]; intro st; [reflexivity|].
  simpl.
  change (Evaluate.evaluate_sample (with_results_file w saved) s reference_text)
    with (Evaluate.evaluate_sample w s reference_text).
  destruct (file_exists w (s_filename s)); [|apply IH].
  destruct (Evaluate.evaluate_sample w s reference_text); simpl;
    [apply IH | reflexivity].
Qed.





End MergeFacts.


(** * Further properties of the pipeline *)

(** ** The score of analysed audio *)

Section ScoreRangeFacts.

Lemma sample_rate_points_range (sr : Z) :
  5 <= Score.sample_rate_points sr /\ Score.sample_rate_points sr <= 15.
Proof.
  unfold Score.sample_rate_points.
  repeat match goal with |- context [if ?b then _ else _] => destruct b end;
    split; lra.
Qed.

Lemma bit_depth_points_range (bd : option Z) :
  5 <= Score.bit_depth_points bd /\ Score.bit_depth_points bd <= 10.
Proof.
  unfold Score.bit_depth_points. destruct bd as [b|]; [|split; lra].
  repeat match goal with |- context [if ?b then _ else _] => destruct b end;
    split; lra.
Qed.

Lemma snr_points_range (snr : option Q) :
  5 <= Score.snr_points snr /\ Score.snr_points snr <= 25.
Proof.
  unfold Score.snr_points. destruct snr as [s|]; [|split; lra].
  repeat match goal with |- context [if ?b then _ else _] => destruct b end;
    split; lra.
Qed.

Lemma rms_points_range (rms : Q) :
  5 <= Score.rms_points rms /\ Score.rms_points rms <= 20.
Proof.
  unfold Score.rms_points.
  repeat match goal with |- context [if ?b then _ else _] => destruct b end;
    split; lra.
Qed.

Lemma dynamic_range_points_range (dr : Q) :
  5 <= Score.dynamic_range_points dr /\ Score.dynamic_range_points dr <= 15.
Proof.
  unfold Score.dynamic_range_points.
  repeat match goal with |- context [if ?b then _ else _] => destruct b end;
    split; lra.
Qed.

Lemma raw_score_range (m : AudioMetrics) :
  0 <= clipping_ratio m -> clipping_ratio m <= 1 ->
  25 <= Score.raw_score m /\ Score.raw_score m <= 100.
Proof.
  intros H0 H1. unfold Score.raw_score, Score.clipping_points.
  pose proof (sample_rate_points_range (sample_rate m)).
  pose proof (bit_depth_points_range (bit_depth m)).
  pose proof (snr_points_range (estimated_snr_db m)).
  pose proof (rms_points_range (rms_level_db m)).
  pose proof (dynamic_range_points_range (dynamic_range_db m)).
  split; lra.
Qed.

(** X1.  When the clipping ratio is a ratio (between 0 and 1) the final
    clamp never fires: the score is the plain sum of the six factors, and
    it is at least 25, each of the five stepped factors giving at least 5
    points. *)
Theorem score_is_sum_of_factors (m : AudioMetrics) :
  0 <= clipping_ratio m -> clipping_ratio m <= 1 ->
  Score.calculate_audio_quality_score m == Score.raw_score m
  /\ 25 <= Score.calculate_audio_quality_score m.
Proof.
  intros H0 H1. destruct (raw_score_range m H0 H1) as [Hlo Hhi].
  assert (Heq : Score.calculate_audio_quality_score m == Score.raw_score m).
  { unfold Score.calculate_audio_quality_score. apply clamp_inside; lra. }
  split; [exact Heq | rewrite Heq; exact Hlo].
Qed.

Lemma score_is_sum_of_factors_witness :
  Score.calculate_audio_quality_score Examples.snr_unknown_metrics
  == Score.raw_score Examples.snr_unknown_metrics
  /\ 25 <= Score.calculate_audio_quality_score Examples.snr_unknown_metrics.
Proof.
  apply (score_is_sum_of_factors Examples.snr_unknown_metrics);
    simpl; lra.
Defined.

(** X2.  Outside that range the clamp does fire: a clipping ratio of 7 or
    more brings every recording down to 0, a clipping ratio of -4 or less
    brings every recording up to 100. *)
Theorem score_clamped_outside_unit_ratio (m : AudioMetrics) :
  (7 <= clipping_ratio m -> Score.calculate_audio_quality_score m == 0)
  /\ (clipping_ratio m <= -4 -> Score.calculate_audio_quality_score m == 100).
Proof.
  pose proof (sample_rate_points_range (sample_rate m)).
  pose proof (bit_depth_points_range (bit_depth m)).
  pose proof (snr_points_range (estimated_snr_db m)).
  pose proof (rms_points_range (rms_level_db m)).
  pose proof (dynamic_range_points_range (dynamic_range_db m)).
  unfold Score.calculate_audio_quality_score, Py.min, Py.max.
  split; intro Hc.
  - assert (Hr : Score.raw_score m <= 0).
    { unfold Score.raw_score, Score.clipping_points. lra. }
    apply ltb_false in Hr. rewrite Hr.
    replace (Py.ltb 0 100) with true by reflexivity. reflexivity.
  - assert (Hr : 100 <= Score.raw_score m).
    { unfold Score.raw_score, Score.clipping_points. lra. }
    assert (Hpos : Py.ltb 0 (Score.raw_score m) = true)
      by (apply ltb_true; lra).
    rewrite Hpos. apply ltb_false in Hr. rewrite Hr. reflexivity.
Qed.

End ScoreRangeFacts.

(** ** More on the noise floor *)

Section NoiseFloorOrderFacts.

Lemma StronglySorted_middle {A : Type} (R : A -> A -> Prop)
    (lo hi : list A) (v : A) :
  StronglySorted R (lo ++ v :: hi) ->
  Forall (fun x => R x v) lo /\ Forall (R v) hi.
Proof.
  induction lo as [|a lo IH]; simpl; intro H.
  - split; [constructor | now inversion H].
  - inversion H as [|? ? Hrest Ha]; subst.
    destruct (IH Hrest) as [Hlo Hhi]. split; [|exact Hhi].
    constructor; [|exact Hlo].
    apply Forall_app in Ha. destruct Ha as [_ Ha]. now inversion Ha.
Qed.

Lemma sort_values_sorted (vals : list Q) :
  StronglySorted Qle (NoiseFloor.sort_values vals).
Proof.
  unfold NoiseFloor.sort_values.
  eapply StronglySorted_weaken;
    [|apply sorted_sorted; [apply Qle_bool_total | apply Qle_bool_trans]].
  intros a b Hab. now apply Qle_bool_iff.
Qed.

Lemma percentile_index_nat (n : nat) :
  Z.to_nat (NoiseFloor.percentile_index n) = (n / 10)%nat.
Proof.
  rewrite percentile_index_div.
  change 10%Z with (Z.of_nat 10). rewrite <- Nat2Z.inj_div.
  apply Nat2Z.id.
Qed.

(** The lookup of the estimate, for a non-empty list of valid values. *)
Lemma estimate_noise_floor_lookup (lines : list (option Q)) :
  NoiseFloor.gather lines <> [] ->
  exists v,
    NoiseFloor.estimate_noise_floor lines = Ok v
    /\ nth_error (NoiseFloor.sort_values (NoiseFloor.gather lines))
                 (List.length (NoiseFloor.gather lines) / 10)
       = Some v.
Proof.
  intro Hne. unfold NoiseFloor.estimate_noise_floor.
  destruct (NoiseFloor.gather lines) as [|v0 rest] eqn:Eg; [congruence|].
  set (ordered := NoiseFloor.sort_values (v0 :: rest)).
  assert (Hlen : List.length ordered = List.length (v0 :: rest)).
  { subst ordered. unfold NoiseFloor.sort_values. apply sorted_length. }
  rewrite percentile_index_nat, Hlen.
  destruct (nth_error ordered (List.length (v0 :: rest) / 10)) as [v|] eqn:En.
  - exists v. now split.
  - apply nth_error_None in En. rewrite Hlen in En.
    assert (List.length (v0 :: rest) / 10 < List.length (v0 :: rest))%nat.
    { apply Nat.div_lt; simpl; lia. }
    lia.
Qed.

Lemma estimate_noise_floor_split (lines : list (option Q)) (v : Q) :
  NoiseFloor.gather lines <> [] ->
  NoiseFloor.estimate_noise_floor lines = Ok v ->
  exists lo hi,
    NoiseFloor.sort_values (NoiseFloor.gather lines) = lo ++ v :: hi
    /\ List.length lo = (List.length (NoiseFloor.gather lines) / 10)%nat
    /\ Forall (fun x => x <= v) lo
    /\ Forall (fun x => v <= x) hi.
Proof.
  intros Hne Hv.
  destruct (estimate_noise_floor_lookup lines Hne) as [v' [Hv' Hnth]].
  rewrite Hv in Hv'. injection Hv' as <-.
  apply nth_error_split in Hnth. destruct Hnth as [lo [hi [Heq Hlen]]].
  exists lo, hi. split; [exact Heq|]. split; [exact Hlen|].
  apply StronglySorted_middle. rewrite <- Heq. apply sort_values_sorted.
Qed.

Lemma gather_above_sentinel (lines : list (option Q)) :
  Forall (fun v => -100 < v) (NoiseFloor.gather lines).
Proof.
  rewrite gather_spec. apply Forall_forall. intros v Hv.
  apply filter_In in Hv. now apply ltb_true.
Qed.

Lemma estimate_noise_floor_total (lines : list (option Q)) :
  exists v, NoiseFloor.estimate_noise_floor lines = Ok v.
Proof.
  destruct (NoiseFloor.gather lines) as [|v0 rest] eqn:Eg.
  - exists (-60). unfold NoiseFloor.estimate_noise_floor. now rewrite Eg.
  - assert (Hne : NoiseFloor.gather lines <> []) by (rewrite Eg; discriminate).
    destruct (estimate_noise_floor_lookup lines Hne) as [v [Hv _]].
    now exists v.
Qed.

(** X3.  The estimate never raises and is always above the -100 sentinel:
    it is -60 when no line gave a valid value, and otherwise it is one of
    the valid values. *)
Theorem noise_floor_is_a_valid_value (lines : list (option Q)) :
  exists v,
    NoiseFloor.estimate_noise_floor lines = Ok v
    /\ -100 < v
    /\ match NoiseFloor.gather lines with
       | [] => v = -60
       | _ :: _ => In v (NoiseFloor.gather lines)
       end.
Proof.
  destruct (NoiseFloor.gather lines) as [|v0 rest] eqn:Eg.
  - exists (-60). unfold NoiseFloor.estimate_noise_floor. rewrite Eg.
    repeat split; reflexivity.
  - assert (Hne : NoiseFloor.gather lines <> []) by (rewrite Eg; discriminate).
    destruct (estimate_noise_floor_lookup lines Hne) as [v [Hv Hnth]].
    assert (Hin : In v (NoiseFloor.gather lines)).
    { apply nth_error_In in Hnth. unfold NoiseFloor.sort_values in Hnth.
      now apply sorted_In in Hnth. }
    exists v. split; [exact Hv|]. split.
    + pose proof (gather_above_sentinel lines) as Hall.
      rewrite Forall_forall in Hall. now apply Hall.
    + rewrite <- Eg. exact Hin.
Qed.

(** X4.  The estimate is a tenth percentile: the valid values can be
    arranged as [N / 10] values that are not above the estimate, the
    estimate itself, and the remaining values, none of which is below
    it.  So at least nine tenths of the valid values are at or above the
    noise floor. *)
Theorem noise_floor_tenth_percentile (lines : list (option Q)) (v : Q) :
  NoiseFloor.gather lines <> [] ->
  NoiseFloor.estimate_noise_floor lines = Ok v ->
  exists lo hi,
    Permutation (lo ++ v :: hi) (NoiseFloor.gather lines)
    /\ List.length lo = (List.length (NoiseFloor.gather lines) / 10)%nat
    /\ Forall (fun x => x <= v) lo
    /\ Forall (fun x => v <= x) hi.
Proof.
  intros Hne Hv.
  destruct (estimate_noise_floor_split lines v Hne Hv)
    as [lo [hi [Heq [Hlen [Hlo Hhi]]]]].
  exists lo, hi. split; [|now repeat split].
  rewrite <- Heq. unfold NoiseFloor.sort_values. apply sorted_perm.
Qed.

Lemma noise_floor_tenth_percentile_witness :
  exists lo hi,
    Permutation (lo ++ (-50) :: hi)
                (NoiseFloor.gather [Some (-40); None; Some (-120); Some (-50)])
    /\ List.length lo = 0%nat
    /\ Forall (fun x => x <= -50) lo
    /\ Forall (fun x => -50 <= x) hi.
Proof.
  destruct (noise_floor_tenth_percentile
              [Some (-40); None; Some (-120); Some (-50)] (-50))
    as [lo [hi H]].
  - vm_compute. discriminate.
  - reflexivity.
  - exists lo, hi. exact H.
Defined.

(** X5.  With fewer than ten valid values the index is 0, so the noise
    floor is the smallest valid value. *)
Theorem noise_floor_is_minimum_below_ten (lines : list (option Q)) (v : Q) :
  NoiseFloor.gather lines <> [] ->
  (List.length (NoiseFloor.gather lines) < 10)%nat ->
  NoiseFloor.estimate_noise_floor lines = Ok v ->
  In v (NoiseFloor.gather lines)
  /\ Forall (fun x => v <= x) (NoiseFloor.gather lines).
Proof.
  intros Hne Hlt Hv.
  destruct (estimate_noise_floor_split lines v Hne Hv)
    as [lo [hi [Heq [Hlen [_ Hhi]]]]].
  rewrite Nat.div_small in Hlen by exact Hlt.
  destruct lo; [|discriminate Hlen]. simpl in Heq.
  assert (Hperm : Permutation (v :: hi) (NoiseFloor.gather lines)).
  { rewrite <- Heq. unfold NoiseFloor.sort_values. apply sorted_perm. }
  split.
  - apply (Permutation_in _ Hperm). now left.
  - apply (Permutation_Forall Hperm). constructor; [apply Qle_refl | exact Hhi].
Qed.

Lemma noise_floor_is_minimum_below_ten_witness :
  In (-50) (NoiseFloor.gather [Some (-40); None; Some (-120); Some (-50)])
  /\ Forall (fun x => -50 <= x)
            (NoiseFloor.gather [Some (-40); None; Some (-120); Some (-50)]).
Proof.
  apply (noise_floor_is_minimum_below_ten
           [Some (-40); None; Some (-120); Some (-50)] (-50)).
  - vm_compute. discriminate.
  - vm_compute. lia.
  - reflexivity.
Defined.

End NoiseFloorOrderFacts.

(** ** The metrics of a file *)

Section MetricsFacts.

Lemma unit_clamp (x : Q) :
  0 <= Py.max 0 (Py.min 1 x) /\ Py.max 0 (Py.min 1 x) <= 1.
Proof.
  unfold Py.max, Py.min.
  destruct (Py.ltb x 1) eqn:E1.
  - apply ltb_true in E1. destruct (Py.ltb 0 x) eqn:E0.
    + apply ltb_true in E0. split; lra.
    + split; lra.
  - replace (Py.ltb 0 1) with true by reflexivity. split; lra.
Qed.

Lemma unit_clamp_positive (x : Q) : 0 < Py.max 0 (Py.min 1 x) <-> 0 < x.
Proof.
  unfold Py.max, Py.min.
  destruct (Py.ltb x 1) eqn:E1.
  - destruct (Py.ltb 0 x) eqn:E0.
    + apply ltb_true in E0. tauto.
    + apply ltb_false in E0. split; intro H; lra.
  - apply ltb_false in E1.
    replace (Py.ltb 0 1) with true by reflexivity. split; intro H; lra.
Qed.

(** What a successful analysis went through, and the derived fields. *)
Lemma analyze_audio_metrics_inv (w : World) (f : string) (m : AudioMetrics) :
  Metrics.analyze_audio_metrics w f = Ok m ->
  exists probe levels lines nf,
    ffprobe w f = Ok probe
    /\ volumedetect w f = Ok levels
    /\ astats w f = Ok lines
    /\ NoiseFloor.estimate_noise_floor lines = Ok nf
    /\ peak_amplitude_db m = Metrics.default 0 (peak_db levels)
    /\ rms_level_db m = Metrics.default (-20) (mean_db levels)
    /\ estimated_snr_db m
       = (if Py.truthy nf then Some (rms_level_db m - nf) else None)
    /\ dynamic_range_db m
       = (if Py.truthy nf then Py.abs (peak_amplitude_db m - nf)
          else Py.abs (peak_amplitude_db m - rms_level_db m))
    /\ silence_ratio m
       = (if Py.truthy nf then Py.max 0 (Py.min 1 ((nf + 60) / 60))
          else 1 # 10)
    /\ clipping_ratio m
       = (if Py.ltb (-3) (peak_amplitude_db m)
          then Py.max 0 (Py.min 1 ((peak_amplitude_db m + 1) / 3))
          else 0).
Proof.
  unfold Metrics.analyze_audio_metrics. intro H.
  destruct (ffprobe w f) as [probe|] eqn:Ep; simpl in H; [|discriminate].
  destruct (volumedetect w f) as [levels|] eqn:El; simpl in H; [|discriminate].
  destruct (astats w f) as [lines|] eqn:Ea; simpl in H; [|discriminate].
  destruct (NoiseFloor.estimate_noise_floor lines) as [nf|] eqn:En;
    simpl in H; [|discriminate].
  injection H as <-. exists probe, levels, lines, nf. simpl.
  repeat split; first [reflexivity | assumption].
Qed.

Lemma analyze_audio_metrics_is_ok (w : World) (f : string) :
  is_ok (Metrics.analyze_audio_metrics w f)
  = is_ok (ffprobe w f) && is_ok (volumedetect w f) && is_ok (astats w f).
Proof.
  unfold Metrics.analyze_audio_metrics.
  destruct (ffprobe w f) as [probe|]; simpl; [|reflexivity].
  destruct (volumedetect w f) as [levels|]; simpl; [|reflexivity].
  destruct (astats w f) as [lines|]; simpl; [|reflexivity].
  destruct (estimate_noise_floor_total lines) as [nf Hnf].
  rewrite Hnf. reflexivity.
Qed.

(** X6.  The analysis of a file succeeds exactly when the three
    subprocess calls succeed; the noise-floor estimate itself cannot fail. *)
Theorem analysis_fails_only_with_a_probe (w : World) (f : string) :
  is_ok (Metrics.analyze_audio_metrics w f)
  = is_ok (ffprobe w f) && is_ok (volumedetect w f) && is_ok (astats w f).
Proof. apply analyze_audio_metrics_is_ok. Qed.

Lemma analysed_ratios (w : World) (f : string) (m : AudioMetrics) :
  Metrics.analyze_audio_metrics w f = Ok m ->
  (0 <= silence_ratio m /\ silence_ratio m <= 1)
  /\ (0 <= clipping_ratio m /\ clipping_ratio m <= 1)
  /\ 0 <= dynamic_range_db m.
Proof.
  intro H. apply analyze_audio_metrics_inv in H.
  destruct H as [probe [levels [lines [nf
    [_ [_ [_ [_ [_ [_ [_ [Hdr [Hs Hc]]]]]]]]]]]]].
  rewrite Hs, Hc, Hdr. split; [|split].
  - destruct (Py.truthy nf); [apply unit_clamp | split; lra].
  - destruct (Py.ltb (-3) (peak_amplitude_db m));
      [apply unit_clamp | split; lra].
  - destruct (Py.truthy nf); apply Qabs_nonneg.
Qed.

(** X7.  Whatever the subprocesses report, the metrics of an analysed
    file satisfy the declared ranges: [silence_ratio] and
    [clipping_ratio] lie between 0 and 1 and [dynamic_range_db] is not
    negative. *)
Theorem analysed_ratios_in_unit_interval (w : World) (f : string)
    (m : AudioMetrics) :
  Metrics.analyze_audio_metrics w f = Ok m ->
  (0 <= silence_ratio m /\ silence_ratio m <= 1)
  /\ (0 <= clipping_ratio m /\ clipping_ratio m <= 1)
  /\ 0 <= dynamic_range_db m.
Proof. apply analysed_ratios. Qed.

Lemma analysed_ratios_in_unit_interval_witness :
  exists m,
    Metrics.analyze_audio_metrics
      (Examples.machine Examples.everywhere Examples.nowhere None) "a.wav"
    = Ok m
    /\ (0 <= silence_ratio m /\ silence_ratio m <= 1)
    /\ (0 <= clipping_ratio m /\ clipping_ratio m <= 1)
    /\ 0 <= dynamic_range_db m.
Proof.
  eexists. split; [reflexivity|].
  apply (analysed_ratios_in_unit_interval
           (Examples.machine Examples.everywhere Examples.nowhere None)
           "a.wav").
  reflexivity.
Defined.

(** X8.  The clipping estimate depends on the peak level alone: it is
    positive exactly when the peak is above -1 dB and it is 1 exactly
    when the peak is at or above 2 dB. *)
Theorem clipping_ratio_from_peak (w : World) (f : string) (m : AudioMetrics) :
  Metrics.analyze_audio_metrics w f = Ok m ->
  (0 < clipping_ratio m <-> -1 < peak_amplitude_db m)
  /\ (clipping_ratio m == 1 <-> 2 <= peak_amplitude_db m).
Proof.
  intro H. apply analyze_audio_metrics_inv in H.
  destruct H as [probe [levels [lines [nf
    [_ [_ [_ [_ [_ [_ [_ [_ [_ Hc]]]]]]]]]]]]].
  rewrite Hc. set (p := peak_amplitude_db m).
  change ((p + 1) / 3) with ((p + 1) * (1 # 3)).
  destruct (Py.ltb (-3) p) eqn:E3.
  - apply ltb_true in E3. split.
    + rewrite unit_clamp_positive. split; intro H; lra.
    + unfold Py.max, Py.min.
      destruct (Py.ltb ((p + 1) * (1 # 3)) 1) eqn:E1.
      * apply ltb_true in E1.
        destruct (Py.ltb 0 ((p + 1) * (1 # 3))); split; intro H; lra.
      * apply ltb_false in E1.
        replace (Py.ltb 0 1) with true by reflexivity.
        split; intro H; lra.
  - apply ltb_false in E3. split; split; intro H; lra.
Qed.

Lemma clipping_ratio_from_peak_witness :
  exists m,
    Metrics.analyze_audio_metrics
      (Examples.machine Examples.everywhere Examples.nowhere None) "a.wav"
    = Ok m
    /\ (0 < clipping_ratio m <-> -1 < peak_amplitude_db m)
    /\ (clipping_ratio m == 1 <-> 2 <= peak_amplitude_db m).
Proof.
  eexists. split; [reflexivity|].
  apply (clipping_ratio_from_peak
           (Examples.machine Examples.everywhere Examples.nowhere None)
           "a.wav").
  reflexivity.
Defined.

End MetricsFacts.

(** ** The evaluation of one sample *)

Section EvaluateFacts.

Import Evaluate.

Variable w : World.
Variable reference_text : string.

Lemma transcription_shape (svc ref : string) (out : string * Q) :
  (Text.nonempty (fst out) = false /\ transcription w svc ref out = [])
  \/ (Text.nonempty (fst out) = true
      /\ exists t,
           transcription w svc ref out = [t]
           /\ service t = svc
           /\ text t = fst out
           /\ wer t = jiwer_wer w ref (Text.normalize_text (fst out))
           /\ cer t = jiwer_cer w ref (Text.normalize_text (fst out))
           /\ run_date t = Some (today w)).
Proof.
  destruct out as [txt time]. unfold transcription. simpl.
  destruct (Text.nonempty txt); [right | left; now split].
  split; [reflexivity|]. eexists. split; [reflexivity|].
  simpl. repeat split.
Qed.

(** What a successful evaluation went through. *)
Lemma evaluate_sample_inv (s : Sample) (e : SampleEvaluation) :
  evaluate_sample w s reference_text = Ok e ->
  exists m cloud,
    Metrics.analyze_audio_metrics w (s_filename s) = Ok m
    /\ cloud_transcriptions w reference_text (s_filename s) = Ok cloud
    /\ sample_id e = id s
    /\ filename e = s_filename s
    /\ microphone e = s_microphone s
    /\ audio_metrics e = m
    /\ audio_quality_score e = Score.calculate_audio_quality_score m
    /\ transcriptions e
       = local_transcriptions w reference_text (s_filename s) ++ cloud.
Proof.
  unfold evaluate_sample, cloud_transcriptions, local_transcriptions.
  destruct (Metrics.analyze_audio_metrics w (s_filename s)) as [m|];
    simpl; [|discriminate].
  destruct (key_configured w).
  - destruct (transcribe_with_openai w (s_filename s)) as [out|]; simpl;
      [|discriminate].
    intro H. injection H as <-. do 2 eexists. repeat split.
  - simpl. intro H. injection H as <-. do 2 eexists. repeat split.
Qed.

Lemma evaluate_sample_is_ok (s : Sample) :
  is_ok (evaluate_sample w s reference_text)
  = is_ok (ffprobe w (s_filename s))
    && is_ok (volumedetect w (s_filename s))
    && is_ok (astats w (s_filename s))
    && (negb (key_configured w) || is_ok (post_openai w (s_filename s))).
Proof.
  rewrite <- analyze_audio_metrics_is_ok.
  unfold evaluate_sample, transcribe_with_openai.
  destruct (Metrics.analyze_audio_metrics w (s_filename s)); simpl;
    [|reflexivity].
  destruct (key_configured w); simpl; [|reflexivity].
  destruct (post_openai w (s_filename s)); reflexivity.
Qed.

Lemma local_transcriptions_shape (f : string) :
  local_transcriptions w reference_text f = []
  \/ exists t,
       local_transcriptions w reference_text f = [t]
       /\ service t = local_service
       /\ Text.nonempty (text t) = true
       /\ run_date t = Some (today w).
Proof.
  unfold local_transcriptions.
  destruct (transcribe_with_local_whisper w f) as [out|]; [|now left].
  destruct (transcription_shape local_service
              (Text.normalize_text reference_text) out)
    as [[_ H]|[Hne [t [H [Hs [Ht [_ [_ Hd]]]]]]]]; [now left | right].
  exists t. rewrite Ht. now repeat split.
Qed.

Lemma cloud_transcriptions_shape (f : string) (cloud : list TranscriptionResult) :
  cloud_transcriptions w reference_text f = Ok cloud ->
  cloud = []
  \/ (key_configured w = true
      /\ exists t,
           cloud = [t]
           /\ service t = openai_service
           /\ Text.nonempty (text t) = true
           /\ run_date t = Some (today w)).
Proof.
  unfold cloud_transcriptions. destruct (key_configured w).
  - destruct (transcribe_with_openai w f) as [out|]; simpl; [|discriminate].
    intro H. injection H as <-.
    destruct (transcription_shape openai_service
                (Text.normalize_text reference_text) out)
      as [[_ H]|[Hne [t [H [Hs [Ht [_ [_ Hd]]]]]]]]; [now left | right].
    split; [reflexivity|]. exists t. rewrite Ht. now repeat split.
  - intro H. injection H as <-. now left.
Qed.

End EvaluateFacts.

Section EvaluateTheorems.

Import Evaluate.

(** X9.  The evaluation of a sample raises exactly when one of the three
    audio probes raises or, with a key configured, the request to the
    cloud backend raises.  A failure of the local backend, whatever it
    is, never fails the sample. *)
Theorem sample_fails_only_with_probe_or_cloud (w : World)
    (reference_text : string) (s : Sample) :
  is_ok (evaluate_sample w s reference_text)
  = is_ok (ffprobe w (s_filename s))
    && is_ok (volumedetect w (s_filename s))
    && is_ok (astats w (s_filename s))
    && (negb (key_configured w) || is_ok (post_openai w (s_filename s))).
Proof. apply evaluate_sample_is_ok. Qed.

(** X10.  An evaluated sample carries at most one result per backend, the
    local one first; every result has a non-empty transcript and the date
    of the run; without a configured key there is no cloud result. *)
Theorem transcriptions_one_per_backend (w : World) (reference_text : string)
    (s : Sample) (e : SampleEvaluation) :
  evaluate_sample w s reference_text = Ok e ->
  (List.length (transcriptions e) <= 2)%nat
  /\ NoDup (map service (transcriptions e))
  /\ (exists l c,
        map service (transcriptions e) = l ++ c
        /\ (l = [] \/ l = [local_service])
        /\ (c = [] \/ c = [openai_service]))
  /\ Forall (fun t => Text.nonempty (text t) = true
                      /\ run_date t = Some (today w))
            (transcriptions e)
  /\ (key_configured w = false ->
      ReportGen.has_service openai_service e = false).
Proof.
  intro H. apply evaluate_sample_inv in H.
  destruct H as [m [cloud [_ [Hc [_ [_ [_ [_ [_ Ht]]]]]]]]].
  assert (Hneq : local_service <> openai_service).
  { intro Hx. vm_compute in Hx. discriminate Hx. }
  unfold ReportGen.has_service. rewrite Ht.
  destruct (local_transcriptions_shape w reference_text (s_filename s))
    as [Hl|[tl [Hl [Hsl [Hnl Hdl]]]]];
    destruct (cloud_transcriptions_shape w reference_text (s_filename s)
                cloud Hc)
      as [Hcl|[Hk [tc [Hcl [Hsc [Hnc Hdc]]]]]];
    rewrite Hl, Hcl; simpl; try rewrite Hsl; try rewrite Hsc;
    refine (conj _ (conj _ (conj _ (conj _ _)))).
  (* neither backend answered *)
  - lia.
  - constructor.
  - exists [], []. auto.
  - constructor.
  - reflexivity.
  (* the cloud backend alone *)
  - lia.
  - repeat constructor. intros [].
  - exists [], [openai_service]. auto.
  - repeat constructor; assumption.
  - congruence.
  (* the local backend alone *)
  - lia.
  - repeat constructor. intros [].
  - exists [local_service], []. auto.
  - repeat constructor; assumption.
  - reflexivity.
  (* both *)
  - lia.
  - constructor; [intros [Hx|[]]; congruence|].
    repeat constructor. intros [].
  - exists [local_service], [openai_service]. auto.
  - repeat constructor; assumption.
  - congruence.
Qed.

Lemma transcriptions_one_per_backend_witness :
  exists e,
    evaluate_sample Examples.studio (Examples.sample_of 1 "a.wav")
                    "Hot coffee now" = Ok e
    /\ map service (transcriptions e) = [local_service; openai_service]
    /\ (List.length (transcriptions e) <= 2)%nat
    /\ NoDup (map service (transcriptions e))
    /\ Forall (fun t => Text.nonempty (text t) = true
                        /\ run_date t = Some "2025-01-01"%string)
              (transcriptions e).
Proof.
  destruct (evaluate_sample Examples.studio (Examples.sample_of 1 "a.wav")
                            "Hot coffee now") as [e|x] eqn:E;
    [|vm_compute in E; discriminate E].
  exists e. split; [reflexivity|].
  destruct (transcriptions_one_per_backend
              Examples.studio "Hot coffee now"
              (Examples.sample_of 1 "a.wav") e E)
    as [Hlen [Hnd [_ [Hall _]]]].
  split; [|split; [exact Hlen | split; [exact Hnd | exact Hall]]].
  vm_compute in E. injection E as <-. reflexivity.
Defined.

(** X11.  A freshly evaluated sample takes its id, file name and
    microphone from the metadata entry; its score is the score of its own
    metrics, it is the plain sum of the six factors (the clamp does not
    fire on analysed audio) and it lies between 25 and 100. *)
Theorem evaluated_sample_score (w : World) (reference_text : string)
    (s : Sample) (e : SampleEvaluation) :
  evaluate_sample w s reference_text = Ok e ->
  sample_id e = id s
  /\ filename e = s_filename s
  /\ microphone e = s_microphone s
  /\ audio_quality_score e
     = Score.calculate_audio_quality_score (audio_metrics e)
  /\ audio_quality_score e == Score.raw_score (audio_metrics e)
  /\ 25 <= audio_quality_score e
  /\ audio_quality_score e <= 100.
Proof.
  intro H. apply evaluate_sample_inv in H.
  destruct H as [m [cloud [Hm [_ [Hi [Hf [Hmic [Ham [Hs _]]]]]]]]].
  rewrite Ham, Hs.
  destruct (analysed_ratios w (s_filename s) m Hm) as [_ [[Hc0 Hc1] _]].
  destruct (raw_score_range m Hc0 Hc1) as [Hlo Hhi].
  assert (Heq : Score.calculate_audio_quality_score m == Score.raw_score m).
  { unfold Score.calculate_audio_quality_score. apply clamp_inside; lra. }
  repeat split; try assumption; rewrite ?Heq; assumption.
Qed.

Lemma evaluated_sample_score_witness :
  exists e,
    evaluate_sample (Examples.machine Examples.everywhere Examples.nowhere None)
                    (Examples.sample_of 1 "a.wav") "coffee" = Ok e
    /\ sample_id e = 1%Z
    /\ 25 <= audio_quality_score e
    /\ audio_quality_score e <= 100.
Proof.
  eexists. split; [reflexivity|].
  destruct (evaluated_sample_score
              (Examples.machine Examples.everywhere Examples.nowhere None)
              "coffee" (Examples.sample_of 1 "a.wav") _ eq_refl)
    as [Hid [_ [_ [_ [_ [Hlo Hhi]]]]]].
  split; [exact Hid | split; [exact Hlo | exact Hhi]].
Defined.

End EvaluateTheorems.

Section BackendResultFacts.

Import Evaluate.

Lemma find_service_app (svc : string) (l c : list TranscriptionResult) :
  Forall (fun t => service t <> svc) l ->
  find (fun t => String.eqb (service t) svc) (l ++ c)
  = find (fun t => String.eqb (service t) svc) c.
Proof.
  induction 1 as [|t l Ht _ IH]; [reflexivity|].
  simpl. destruct (String.eqb (service t) svc) eqn:E; [|exact IH].
  apply String.eqb_eq in E. contradiction.
Qed.

Lemma find_service_none (svc : string) (c : list TranscriptionResult) :
  Forall (fun t => service t <> svc) c ->
  find (fun t => String.eqb (service t) svc) c = None.
Proof.
  induction 1 as [|t l Ht _ IH]; [reflexivity|].
  simpl. destruct (String.eqb (service t) svc) eqn:E; [|exact IH].
  apply String.eqb_eq in E. contradiction.
Qed.

Lemma transcription_services (w : World) (svc ref : string) (out : string * Q)
    (other : string) :
  svc <> other ->
  Forall (fun t => service t <> other) (transcription w svc ref out).
Proof.
  intro Hne.
  destruct (transcription_shape w svc ref out)
    as [[_ H]|[_ [t [H [Hs _]]]]]; rewrite H; repeat constructor.
  now rewrite Hs.
Qed.

Lemma service_wer_of_transcription (w : World) (svc ref : string)
    (r : HttpReply) :
  option_map wer
    (find (fun t => String.eqb (service t) svc)
          (transcription w svc ref (reply_to_text r)))
  = if (status_code r =? 200)%Z
       && Text.nonempty (Metrics.default EmptyString (reply_text r))
    then Some (jiwer_wer w ref
                 (Text.normalize_text
                    (Metrics.default EmptyString (reply_text r))))
    else None.
Proof.
  unfold reply_to_text, transcription.
  destruct (status_code r =? 200)%Z; simpl.
  - destruct (Text.nonempty (Metrics.default EmptyString (reply_text r)));
      simpl; [|reflexivity].
    now rewrite String.eqb_refl.
  - reflexivity.
Qed.

(** X12.  The WER a sample has for a backend is decided by the reply of
    that backend alone.  For the local backend it is present exactly when
    the request did not raise and the reply has status 200 and a
    non-empty text, and it is then the WER that [jiwer] gives for the
    normalised reference and the normalised transcript; for the cloud
    backend the same holds when a key is configured, and there is no
    cloud WER without a key. *)
Theorem backend_wer_follows_reply (w : World) (reference_text : string)
    (s : Sample) (e : SampleEvaluation) :
  evaluate_sample w s reference_text = Ok e ->
  let wer_of (r : HttpReply) :=
    if (status_code r =? 200)%Z
       && Text.nonempty (Metrics.default EmptyString (reply_text r))
    then Some (jiwer_wer w (Text.normalize_text reference_text)
                 (Text.normalize_text
                    (Metrics.default EmptyString (reply_text r))))
    else None in
  ReportGen.service_wer local_service e
  = match post_local w (s_filename s) with
    | Ok r => wer_of r
    | Raise _ => None
    end
  /\ ReportGen.service_wer openai_service e
     = (if key_configured w
        then match post_openai w (s_filename s) with
             | Ok r => wer_of r
             | Raise _ => None
             end
        else None).
Proof.
  intros H wer_of. subst wer_of. cbv beta. apply evaluate_sample_inv in H.
  destruct H as [m [cloud [_ [Hc [_ [_ [_ [_ [_ Ht]]]]]]]]].
  assert (Hneq : local_service <> openai_service).
  { intro Hx. vm_compute in Hx. discriminate Hx. }
  assert (Hcloud : Forall (fun t => service t <> local_service) cloud).
  { unfold cloud_transcriptions in Hc. destruct (key_configured w).
    - destruct (transcribe_with_openai w (s_filename s)); simpl in Hc;
        [|discriminate].
      injection Hc as <-. apply transcription_services. congruence.
    - injection Hc as <-. constructor. }
  assert (Hlocal : Forall (fun t => service t <> openai_service)
                     (local_transcriptions w reference_text (s_filename s))).
  { unfold local_transcriptions.
    destruct (transcribe_with_local_whisper w (s_filename s));
      [now apply transcription_services | constructor]. }
  unfold ReportGen.service_wer. rewrite Ht. split.
  - unfold local_transcriptions, transcribe_with_local_whisper.
    destruct (post_local w (s_filename s)) as [r|]; simpl.
    + destruct (transcription_shape w local_service
                  (Text.normalize_text reference_text) (reply_to_text r))
        as [[_ Hn]|[_ [t [Hn [Hs _]]]]].
      * rewrite Hn. simpl. rewrite find_service_none by exact Hcloud.
        rewrite <- (service_wer_of_transcription w local_service).
        now rewrite Hn.
      * rewrite <- (service_wer_of_transcription w local_service).
        rewrite Hn. simpl. now rewrite Hs, String.eqb_refl.
    + now rewrite find_service_none by exact Hcloud.
  - rewrite find_service_app by exact Hlocal.
    unfold cloud_transcriptions, transcribe_with_openai in Hc.
    destruct (key_configured w).
    + destruct (post_openai w (s_filename s)) as [r|]; simpl in Hc;
        [|discriminate].
      injection Hc as <-. apply service_wer_of_transcription.
    + injection Hc as <-. reflexivity.
Qed.

Lemma backend_wer_follows_reply_witness :
  exists e,
    evaluate_sample Examples.studio (Examples.sample_of 1 "a.wav")
                    "Hot coffee now" = Ok e
    /\ ReportGen.service_wer local_service e = Some 0
    /\ ReportGen.service_wer openai_service e = Some (1 # 3).
Proof.
  destruct (evaluate_sample Examples.studio (Examples.sample_of 1 "a.wav")
                            "Hot coffee now") as [e|x] eqn:E;
    [|vm_compute in E; discriminate E].
  exists e. split; [reflexivity|].
  destruct (backend_wer_follows_reply
              Examples.studio "Hot coffee now"
              (Examples.sample_of 1 "a.wav") e E) as [Hl Ho].
  split; [rewrite Hl | rewrite Ho]; reflexivity.
Defined.

End BackendResultFacts.

(** ** More on text normalisation *)

Section TextCompositionFacts.

Import Text.

Lemma lower_char_keeps_class (c : ascii) :
  is_word (lower_char c) = is_word c /\ is_space (lower_char c) = is_space c.
Proof.
  destruct c as [[] [] [] [] [] [] [] []]; split; reflexivity.
Qed.

Lemma lower_idem (l : list ascii) : lower (lower l) = lower l.
Proof.
  unfold lower. rewrite map_map. apply map_ext. apply lower_char_idem.
Qed.

Lemma list_ascii_of_string_app (s1 s2 : string) :
  list_ascii_of_string (s1 ++ s2)
  = list_ascii_of_string s1 ++ list_ascii_of_string s2.
Proof.
  induction s1 as [|c s1 IH]; [reflexivity|]. simpl. now rewrite IH.
Qed.

Lemma strip_lower_symbol (c : ascii) :
  is_word c = false -> is_space c = false ->
  strip_symbols (lower [c]) = [].
Proof.
  intros Hw Hs. unfold strip_symbols, lower. simpl.
  destruct (lower_char_keeps_class c) as [-> ->]. now rewrite Hw, Hs.
Qed.

Lemma span_blank_free (z : list ascii) :
  exists u rest,
    z = u ++ rest
    /\ Forall (fun c => is_space c = false) u
    /\ starts_blank rest = true.
Proof.
  induction z as [|c z IH].
  - exists [], []. repeat split. constructor.
  - destruct (is_space c) eqn:Ec.
    + exists [], (c :: z). repeat split; [constructor | exact Ec].
    + destruct IH as [u [rest [-> [Hu Hr]]]].
      exists (c :: u), rest. repeat split; [|exact Hr].
      constructor; assumption.
Qed.

Lemma split_blank_free_app (u r : list ascii) :
  Forall (fun c => is_space c = false) u -> starts_blank r = true ->
  split (u ++ r) = match u with
                   | [] => split r
                   | _ :: _ => u :: split r
                   end.
Proof.
  intros Hu Hr. destruct u as [|c u']; [reflexivity|].
  apply split_app_word; [|exact Hr]. split; [discriminate | exact Hu].
Qed.

Lemma strip_blank_free (u : list ascii) :
  Forall (fun c => is_space c = false) u ->
  Forall (fun c => is_space c = false) (strip_symbols u).
Proof.
  intro H. apply Forall_forall. intros c Hc.
  apply filter_In in Hc. rewrite Forall_forall in H. now apply H.
Qed.

Lemma strip_starts_blank (r : list ascii) :
  starts_blank r = true -> starts_blank (strip_symbols r) = true.
Proof.
  destruct r as [|d r]; [reflexivity|]. simpl. intro Hd.
  unfold strip_symbols. simpl. rewrite Hd, orb_true_r. exact Hd.
Qed.

Lemma strip_blank (d : ascii) (r : list ascii) :
  is_space d = true -> strip_symbols (d :: r) = d :: strip_symbols r.
Proof.
  intro Hd. unfold strip_symbols. simpl. now rewrite Hd, orb_true_r.
Qed.

Lemma split_blank (d : ascii) (r : list ascii) :
  is_space d = true -> split (d :: r) = split r.
Proof. intro Hd. now rewrite split_cons, Hd. Qed.

(** Collapsing the whitespace first does not change the words that are
    left after the symbols are deleted. *)
Lemma split_strip_collapsed (n : nat) (z : list ascii) :
  (List.length z <= n)%nat ->
  split (strip_symbols (join (split z))) = split (strip_symbols z).
Proof.
  revert z. induction n as [|n IH]; intros z Hlen.
  - destruct z; [reflexivity | simpl in Hlen; lia].
  - destruct (span_blank_free z) as [u [rest [-> [Hu Hr]]]].
    destruct u as [|c u'].
    + simpl. destruct rest as [|d rest']; [reflexivity|].
      simpl in Hr. rewrite (split_blank d rest' Hr).
      rewrite (strip_blank d rest' Hr), (split_blank _ _ Hr).
      apply IH. simpl in Hlen. lia.
    + set (W := c :: u') in *.
      assert (HW : word W) by (split; [discriminate | exact Hu]).
      assert (Hrest : (List.length rest <= n)%nat).
      { rewrite length_app in Hlen. simpl in Hlen. lia. }
      pose proof (IH rest Hrest) as IHr.
      rewrite (split_app_word W rest HW Hr).
      unfold strip_symbols at 2. rewrite filter_app.
      fold (strip_symbols W). fold (strip_symbols rest).
      rewrite (split_blank_free_app (strip_symbols W) (strip_symbols rest)
                 (strip_blank_free W Hu) (strip_starts_blank rest Hr)).
      destruct (split rest) as [|w2 ws] eqn:Es.
      * simpl join. simpl in IHr. rewrite <- IHr.
        rewrite <- (app_nil_r (strip_symbols W)) at 1.
        now rewrite (split_blank_free_app (strip_symbols W) []
                       (strip_blank_free W Hu) eq_refl).
      * rewrite join_cons by discriminate.
        unfold strip_symbols at 1. rewrite filter_app.
        fold (strip_symbols W).
        change (filter (fun c0 => is_word c0 || is_space c0)
                       (space :: join (w2 :: ws)))
          with (space :: strip_symbols (join (w2 :: ws))).
        rewrite (split_blank_free_app (strip_symbols W)
                   (space :: strip_symbols (join (w2 :: ws)))
                   (strip_blank_free W Hu) eq_refl).
        rewrite (split_blank space _ eq_refl), IHr. reflexivity.
Qed.

Lemma join_split_lower_fixed (l : list ascii) :
  lower (join (split (lower l))) = join (split (lower l)).
Proof.
  assert (H : Forall (fun c => lower_char c = c) (join (split (lower l)))).
  { apply Forall_forall. intros c Hc. apply join_chars in Hc.
    destruct Hc as [->|Hc]; [reflexivity|].
    rewrite concat_split in Hc. apply filter_In in Hc. destruct Hc as [Hc _].
    unfold lower in Hc. apply in_map_iff in Hc. destruct Hc as [c0 [<- _]].
    apply lower_char_idem. }
  unfold lower at 1. induction H as [|c r Hc _ IH]; [reflexivity|].
  simpl. now rewrite Hc, IH.
Qed.

Lemma split_map (f : ascii -> ascii) (l : list ascii) :
  (forall c, is_space (f c) = is_space c) ->
  split (map f l) = map (map f) (split l).
Proof.
  intro Hf. induction l as [|c l IH]; [reflexivity|].
  simpl map at 1. rewrite !split_cons, Hf.
  assert (Hb : starts_blank (map f l) = starts_blank l).
  { destruct l; [reflexivity | simpl; apply Hf]. }
  rewrite Hb, IH.
  destruct (is_space c); [reflexivity|].
  destruct (starts_blank l); [reflexivity|].
  destruct (split l); reflexivity.
Qed.

End TextCompositionFacts.

Section TextTheorems.

Import Text.

Lemma normalize_chars_lower (l : list ascii) :
  normalize_chars (lower l) = normalize_chars l.
Proof. unfold normalize_chars. now rewrite lower_idem. Qed.

Lemma normalize_chars_symbol (l1 l2 : list ascii) (c : ascii) :
  is_word c = false -> is_space c = false ->
  normalize_chars (l1 ++ c :: l2) = normalize_chars (l1 ++ l2).
Proof.
  intros Hw Hs. unfold normalize_chars. do 2 f_equal.
  unfold lower. rewrite !map_app. simpl map.
  unfold strip_symbols. rewrite !filter_app. f_equal. simpl.
  destruct (lower_char_keeps_class c) as [-> ->]. now rewrite Hw, Hs.
Qed.

(** X14.  For text over the code points U+0000..U+00FF, where
    [str.lower] works one character at a time, the normal form does not
    see the case of the letters nor the characters that are neither word
    characters nor whitespace: lowering the text first, or inserting such
    a character anywhere, leaves the normalised text the same. *)
Theorem normalize_ignores_case_and_symbols :
  (forall s, normalize_text (lower_text s) = normalize_text s)
  /\ (forall s1 s2 c,
        is_word c = false -> is_space c = false ->
        normalize_text (s1 ++ String c s2) = normalize_text (s1 ++ s2)).
Proof.
  split.
  - intro s. unfold normalize_text, lower_text. f_equal.
    rewrite list_ascii_of_string_of_list_ascii. apply normalize_chars_lower.
  - intros s1 s2 c Hw Hs. unfold normalize_text. f_equal.
    rewrite !list_ascii_of_string_app. simpl.
    now apply normalize_chars_symbol.
Qed.

Lemma normalize_ignores_case_and_symbols_witness :
  normalize_text (lower_text "Hello World") = normalize_text "Hello World"
  /\ normalize_text ("Hello" ++ String "," " World")
     = normalize_text ("Hello" ++ " World").
Proof.
  destruct normalize_ignores_case_and_symbols as [Hcase Hsym].
  split; [apply Hcase | apply Hsym; reflexivity].
Defined.

Lemma normalize_chars_collapsed (l : list ascii) :
  normalize_chars (join (split (lower l))) = normalize_chars l.
Proof.
  unfold normalize_chars. rewrite join_split_lower_fixed.
  now rewrite (split_strip_collapsed (List.length (lower l)) (lower l)).
Qed.

(** X15.  The reference text is normalised twice on its way to the error
    rates, by [get_reference_text] when it is loaded and by
    [normalize_text] in [evaluate_sample]; the result is the one that
    [normalize_text] gives on the file contents directly. *)
Theorem reference_normalised_once (contents : string) :
  normalize_text (get_reference_text contents) = normalize_text contents.
Proof.
  unfold normalize_text, get_reference_text. f_equal.
  rewrite list_ascii_of_string_of_list_ascii.
  apply normalize_chars_collapsed.
Qed.

Lemma word_count_reference (contents : string) :
  word_count (get_reference_text contents) = word_count contents.
Proof.
  unfold word_count, get_reference_text.
  rewrite list_ascii_of_string_of_list_ascii.
  rewrite split_join by apply split_words.
  unfold lower. rewrite split_map by apply lower_char_keeps_class.
  apply length_map.
Qed.

(** X16.  [get_reference_text] keeps the words of the file as they are
    up to case: loading the loaded text again changes nothing, and the
    number of words is that of the file. *)
Theorem reference_text_words_kept (contents : string) :
  get_reference_text (get_reference_text contents)
  = get_reference_text contents
  /\ word_count (get_reference_text contents) = word_count contents
  /\ list_ascii_of_string (get_reference_text contents)
     = join (map lower (split (list_ascii_of_string contents))).
Proof.
  split; [|split].
  - unfold get_reference_text. f_equal.
    rewrite list_ascii_of_string_of_list_ascii.
    rewrite join_split_lower_fixed.
    now rewrite split_join by apply split_words.
  - apply word_count_reference.
  - unfold get_reference_text.
    rewrite list_ascii_of_string_of_list_ascii.
    unfold lower at 1.
    now rewrite split_map by apply lower_char_keeps_class.
Qed.

End TextTheorems.

(** ** More on the report *)

Section ReportErrorFacts.

Import ReportGen.

Lemma map_result_ok {A B : Type} (f : A -> result B) (l : list A) :
  (forall x, In x l -> exists b, f x = Ok b) ->
  exists bs, map_result f l = Ok bs /\ Forall2 (fun x b => f x = Ok b) l bs.
Proof.
  induction l as [|x l IH]; intro H.
  - exists []. split; [reflexivity | constructor].
  - destruct (H x (or_introl eq_refl)) as [b Hb].
    destruct IH as [bs [Hbs Hall]]; [intros y Hy; apply H; now right|].
    exists (b :: bs). simpl. rewrite Hb. simpl. rewrite Hbs. simpl.
    split; [reflexivity | constructor; assumption].
Qed.

Lemma map_result_inv {A B : Type} (f : A -> result B) (l : list A)
    (bs : list B) :
  map_result f l = Ok bs -> Forall2 (fun x b => f x = Ok b) l bs.
Proof.
  revert bs. induction l as [|x l IH]; intros bs H; simpl in H.
  - injection H as <-. constructor.
  - destruct (f x) as [b|] eqn:Ex; simpl in H; [|discriminate].
    destruct (map_result f l) as [bs'|]; simpl in H; [|discriminate].
    injection H as <-. constructor; [exact Ex | now apply IH].
Qed.

End ReportErrorFacts.

Section CategoryGroupFacts.

Import ReportGen.

Lemma generate_report_categories (k : option string)
    (evs : list SampleEvaluation) (ref : string) :
  match categories evs with
  | Ok cats =>
      exists r, generate_report k evs ref = Ok r /\ category_analysis r = cats
  | Raise x => generate_report k evs ref = Raise x
  end.
Proof.
  unfold generate_report. destruct (categories evs) as [cats|x]; simpl.
  - eexists. split; reflexivity.
  - reflexivity.
Qed.

Lemma category_stats_ok_members (evs : list SampleEvaluation)
    (c : string) (ids : list Z) (b : string * CategoryData) :
  category_stats evs (c, ids) = Ok b -> filter (in_category c) evs <> [].
Proof.
  unfold category_stats, mean. intros H Hnil. rewrite Hnil in H.
  simpl in H. discriminate H.
Qed.

Lemma in_category_member (evs : list SampleEvaluation) (c : string)
    (e : SampleEvaluation) :
  In e evs -> in_category c e = true -> filter (in_category c) evs <> [].
Proof.
  intros Hin Hc Hnil.
  assert (H : In e (filter (in_category c) evs)) by (apply filter_In; now split).
  rewrite Hnil in H. exact H.
Qed.

(** Report generation goes through when every group has a member. *)
Lemma categories_ok (evs : list SampleEvaluation) :
  negb (existsb (fun e => match category (microphone e) with
                          | None => true
                          | Some _ => false
                          end) evs)
  || existsb (in_category "unknown") evs = true ->
  exists cats,
    categories evs = Ok cats
    /\ Forall2 (fun g b => category_stats evs g = Ok b) (group_samples evs) cats.
Proof.
  intro HB. unfold categories. apply map_result_ok.
  intros [c ids] Hg.
  assert (Hkey : In c (map fst (group_samples evs))).
  { apply in_map_iff. exists (c, ids). now split. }
  apply group_samples_keys in Hkey. destruct Hkey as [e [Hin Hk]].
  assert (Hmem : filter (in_category c) evs <> []).
  { unfold group_key in Hk.
    destruct (category (microphone e)) as [c'|] eqn:Ec; simpl in Hk.
    - subst c'. apply (in_category_member evs c e Hin).
      unfold in_category. rewrite Ec. apply String.eqb_refl.
    - subst c. apply orb_true_iff in HB. destruct HB as [HB|HB].
      + apply negb_true_iff in HB.
        assert (Ht : existsb (fun e => match category (microphone e) with
                                       | None => true
                                       | Some _ => false
                                       end) evs = true).
        { apply existsb_exists. exists e. split; [exact Hin|]. now rewrite Ec. }
        congruence.
      + apply existsb_exists in HB. destruct HB as [e' [Hin' He']].
        exact (in_category_member evs _ e' Hin' He'). }
  destruct (category_stats_members evs c ids Hmem) as [d [Hd _]].
  now exists (c, d).
Qed.

(** X17.  Report generation fails on exactly one kind of input: some
    sample has no category and no sample carries the literal category
    ["unknown"].  The failure is then a [ZeroDivisionError]; on every
    other evaluation list, the empty one included, a report is
    produced. *)
Theorem report_fails_iff_unlabelled_group (k : option string)
    (evs : list SampleEvaluation) (ref : string) :
  is_ok (generate_report k evs ref)
  = negb (existsb (fun e => match category (microphone e) with
                            | None => true
                            | Some _ => false
                            end) evs)
    || existsb (in_category "unknown") evs
  /\ (is_ok (generate_report k evs ref) = false ->
      generate_report k evs ref = Raise ZeroDivisionError).
Proof.
  destruct (negb (existsb (fun e => match category (microphone e) with
                                    | None => true
                                    | Some _ => false
                                    end) evs)
            || existsb (in_category "unknown") evs) eqn:HB.
  - destruct (categories_ok evs HB) as [cats [Hc _]].
    pose proof (generate_report_categories k evs ref) as Hg.
    rewrite Hc in Hg. destruct Hg as [r [Hr _]]. rewrite Hr.
    split; [reflexivity | discriminate].
  - apply orb_false_iff in HB. destruct HB as [Hun Hlab].
    apply negb_false_iff in Hun.
    assert (Hraise : categories evs = Raise ZeroDivisionError).
    { apply categories_raise.
      - apply existsb_exists in Hun. destruct Hun as [e [Hin He]].
        exists e. split; [exact Hin|].
        now destruct (category (microphone e)).
      - intros e Hin Hc.
        assert (Ht : existsb (in_category "unknown") evs = true).
        { apply existsb_exists. exists e. split; [exact Hin|].
          unfold in_category. now rewrite Hc. }
        congruence. }
    pose proof (generate_report_categories k evs ref) as Hg.
    rewrite Hraise in Hg. rewrite Hg. split; reflexivity.
Qed.

Lemma group_samples_snoc (evs : list SampleEvaluation) (e : SampleEvaluation) :
  group_samples (evs ++ [e])
  = add_to_group (group_key e) (sample_id e) (group_samples evs).
Proof. unfold group_samples. now rewrite fold_left_app. Qed.

Lemma add_to_group_NoDup (cat : string) (sid : Z)
    (g : list (string * list Z)) :
  NoDup (map fst g) -> NoDup (map fst (add_to_group cat sid g)).
Proof.
  induction g as [|[c0 ids0] rest IH]; simpl; intro H.
  - repeat constructor. intros [].
  - inversion H as [|? ? Hc0 Hrest]; subst.
    destruct (String.eqb c0 cat) eqn:E; simpl.
    + exact H.
    + constructor; [|now apply IH].
      rewrite add_to_group_keys. intros [Hx|Hx]; [|contradiction].
      subst c0. rewrite String.eqb_refl in E. discriminate.
Qed.

Lemma add_to_group_In (cat : string) (sid : Z) (g : list (string * list Z))
    (c : string) (ids : list Z) :
  NoDup (map fst g) ->
  In (c, ids) (add_to_group cat sid g) ->
  (c <> cat /\ In (c, ids) g)
  \/ (c = cat
      /\ ((exists ids0, In (cat, ids0) g /\ ids = ids0 ++ [sid])
          \/ (~ In cat (map fst g) /\ ids = [sid]))).
Proof.
  induction g as [|[c0 ids0] rest IH]; simpl; intros Hnd Hin.
  - destruct Hin as [Hin|[]]. injection Hin as <- <-.
    right. split; [reflexivity|]. right. split; [tauto | reflexivity].
  - inversion Hnd as [|? ? Hc0 Hrest]; subst.
    destruct (String.eqb c0 cat) eqn:E.
    + apply String.eqb_eq in E. subst c0. destruct Hin as [Hin|Hin].
      * injection Hin as <- <-. right. split; [reflexivity|].
        left. exists ids0. split; [now left | reflexivity].
      * left. split; [|now right].
        intros ->. apply Hc0. apply in_map_iff. exists (cat, ids). now split.
    + assert (Hne : c0 <> cat).
      { intros ->. rewrite String.eqb_refl in E. discriminate. }
      destruct Hin as [Hin|Hin].
      * injection Hin as <- <-. left. split; [exact Hne | now left].
      * destruct (IH Hrest Hin) as [[Hc Hr]|[Hc [[i0 [Hi Hids]]|[Hno Hids]]]].
        -- left. split; [exact Hc | now right].
        -- right. split; [exact Hc|]. left. exists i0.
           split; [now right | exact Hids].
        -- right. split; [exact Hc|]. right. split; [|exact Hids].
           intros [Hx|Hx]; [now apply Hne | now apply Hno].
Qed.

Lemma filter_none {A : Type} (p : A -> bool) (l : list A) :
  (forall x, In x l -> p x = false) -> filter p l = [].
Proof.
  induction l as [|x l IH]; intro H; [reflexivity|].
  simpl. rewrite (H x (or_introl eq_refl)). apply IH.
  intros y Hy. apply H. now right.
Qed.

(** The groups built by the first loop: one per grouping key, each
    holding the ids of the samples with that key, in input order. *)
Lemma group_samples_spec (evs : list SampleEvaluation) :
  NoDup (map fst (group_samples evs))
  /\ forall c ids,
       In (c, ids) (group_samples evs) ->
       ids = map sample_id
                 (filter (fun e => String.eqb (group_key e) c) evs).
Proof.
  induction evs as [|e evs IH] using rev_ind.
  - split; [constructor | intros c ids []].
  - destruct IH as [Hnd Hids]. rewrite group_samples_snoc. split.
    + now apply add_to_group_NoDup.
    + intros c ids Hin. rewrite filter_app, map_app. simpl.
      apply (add_to_group_In _ _ _ _ _ Hnd) in Hin.
      destruct Hin as [[Hc Hg]|[Hc [[i0 [Hi ->]]|[Hno ->]]]].
      * assert (E : String.eqb (group_key e) c = false).
        { apply String.eqb_neq. congruence. }
        rewrite E. simpl. rewrite app_nil_r. now apply Hids.
      * subst c. rewrite String.eqb_refl. simpl.
        now rewrite (Hids _ _ Hi).
      * subst c. rewrite String.eqb_refl. simpl.
        rewrite filter_none; [reflexivity|].
        intros x Hx. apply String.eqb_neq. intro Hk.
        apply Hno. apply group_samples_keys. now exists x.
Qed.

Lemma category_stats_fields (evs : list SampleEvaluation)
    (c : string) (ids : list Z) (b : string * CategoryData) :
  category_stats evs (c, ids) = Ok b ->
  let members := filter (in_category c) evs in
  let wers := present (map (service_wer local_service) members) in
  fst b = c
  /\ samples (snd b) = ids
  /\ members <> []
  /\ avg_quality (snd b)
     = Py.sum (map audio_quality_score members)
       / inject_Z (Z.of_nat (List.length members))
  /\ avg_wer (snd b)
     = match wers with
       | [] => None
       | _ :: _ => Some (Py.sum wers / inject_Z (Z.of_nat (List.length wers)))
       end.
Proof.
  intros H members wers.
  pose proof (category_stats_ok_members evs c ids b H) as Hne.
  destruct (category_stats_members evs c ids Hne)
    as [d [Hd [Hs [Hq [Hnone Hsome]]]]].
  rewrite Hd in H. injection H as <-. simpl.
  split; [reflexivity|]. split; [exact Hs|]. split; [exact Hne|].
  split; [exact Hq|].
  fold members in Hnone, Hsome. fold wers in Hnone, Hsome.
  destruct wers as [|x xs] eqn:Ew; [now apply Hnone|].
  apply Hsome. discriminate.
Qed.

Lemma Forall2_in_right {A B : Type} (R : A -> B -> Prop)
    (l : list A) (l' : list B) (b : B) :
  Forall2 R l l' -> In b l' -> exists a, In a l /\ R a b.
Proof.
  induction 1 as [|x y l l' Hxy _ IH]; intros Hin; [destruct Hin|].
  destruct Hin as [<-|Hin].
  - exists x. split; [now left | exact Hxy].
  - destruct (IH Hin) as [a [Ha HR]]. exists a. split; [now right | exact HR].
Qed.

Lemma Forall2_map_fst (evs : list SampleEvaluation)
    (groups : list (string * list Z)) (cats : list (string * CategoryData)) :
  Forall2 (fun g b => category_stats evs g = Ok b) groups cats ->
  map fst cats = map fst groups.
Proof.
  induction 1 as [|[c ids] b groups cats Hgb _ IH]; [reflexivity|].
  simpl. rewrite IH. f_equal.
  now destruct (category_stats_fields evs c ids b Hgb) as [Hf _].
Qed.

(** What is known of the category analysis of a generated report. *)
Lemma category_analysis_entry (k : option string)
    (evs : list SampleEvaluation) (ref : string) (r : Report)
    (c : string) (d : CategoryData) :
  generate_report k evs ref = Ok r ->
  In (c, d) (category_analysis r) ->
  In (c, samples d) (group_samples evs)
  /\ category_stats evs (c, samples d) = Ok (c, d).
Proof.
  intros Hr Hin.
  pose proof (generate_report_categories k evs ref) as Hg.
  destruct (categories evs) as [cats|x] eqn:Ec; [|congruence].
  destruct Hg as [r' [Hr' Hcats]]. rewrite Hr in Hr'. injection Hr' as <-.
  rewrite Hcats in Hin. unfold categories in Ec. apply map_result_inv in Ec.
  destruct (Forall2_in_right _ _ _ _ Ec Hin) as [[c' ids] [Hg' Hstat]].
  destruct (category_stats_fields evs c' ids (c, d) Hstat) as [Hf [Hs _]].
  simpl in Hf, Hs. subst c' ids. now split.
Qed.

(** X18.  In a generated report the category analysis has one group per
    category name, a sample without a category counting under
    ["unknown"], and the [samples] of a group are the ids of exactly the
    samples of that category, in the order of the evaluation list; so
    every sample is listed in one group and one only. *)
Theorem category_groups_partition (k : option string)
    (evs : list SampleEvaluation) (ref : string) (r : Report) :
  generate_report k evs ref = Ok r ->
  NoDup (map fst (category_analysis r))
  /\ (forall c, In c (map fst (category_analysis r))
                <-> exists e, In e evs /\ group_key e = c)
  /\ (forall c d, In (c, d) (category_analysis r) ->
        samples d
        = map sample_id
              (filter (fun e => String.eqb (group_key e) c) evs)).
Proof.
  intro Hr.
  assert (Hkeys : map fst (category_analysis r) = map fst (group_samples evs)).
  { pose proof (generate_report_categories k evs ref) as Hg.
    destruct (categories evs) as [cats|x] eqn:Ec; [|congruence].
    destruct Hg as [r' [Hr' Hcats]]. rewrite Hr in Hr'. injection Hr' as <-.
    rewrite Hcats. unfold categories in Ec. apply map_result_inv in Ec.
    now apply (Forall2_map_fst evs). }
  destruct (group_samples_spec evs) as [Hnd Hids].
  split; [now rewrite Hkeys|]. split.
  - intro c. rewrite Hkeys. apply group_samples_keys.
  - intros c d Hin.
    destruct (category_analysis_entry k evs ref r c d Hr Hin) as [Hg _].
    now apply Hids.
Qed.

Lemma category_groups_partition_witness :
  exists r,
    generate_report None Examples.ranked "" = Ok r
    /\ NoDup (map fst (category_analysis r))
    /\ map fst (category_analysis r) = ["usb"%string; "xlr"%string].
Proof.
  destruct (generate_report None Examples.ranked "") as [r|x] eqn:E;
    [|vm_compute in E; discriminate E].
  exists r.
  destruct (category_groups_partition None Examples.ranked "" r E)
    as [Hnd _].
  split; [reflexivity|]. split; [exact Hnd|].
  vm_compute in E. injection E as <-. reflexivity.
Defined.

Lemma labelled_in_category (e : SampleEvaluation) (c : string) :
  category (microphone e) <> None ->
  in_category c e = String.eqb (group_key e) c.
Proof.
  intro H. unfold in_category, group_key.
  destruct (category (microphone e)); [reflexivity | congruence].
Qed.

(** X19.  When every sample has a category, a report is generated and,
    for every group of its category analysis, [avg_quality] is the sum of
    the members' scores divided by their number and [avg_wer] is the same
    mean of the local-backend WERs over the members that have one, and is
    absent when no member has one; the members are the samples listed in
    the group. *)
Theorem category_means_when_labelled (k : option string)
    (evs : list SampleEvaluation) (ref : string) :
  (forall e, In e evs -> category (microphone e) <> None) ->
  exists r,
    generate_report k evs ref = Ok r
    /\ forall c d, In (c, d) (category_analysis r) ->
         let members := filter (in_category c) evs in
         let wers := present (map (service_wer local_service) members) in
         samples d = map sample_id members
         /\ members <> []
         /\ avg_quality d
            = Py.sum (map audio_quality_score members)
              / inject_Z (Z.of_nat (List.length members))
         /\ avg_wer d
            = match wers with
              | [] => None
              | _ :: _ =>
                  Some (Py.sum wers / inject_Z (Z.of_nat (List.length wers)))
              end.
Proof.
  intro Hlab.
  assert (HB : negb (existsb (fun e => match category (microphone e) with
                                       | None => true
                                       | Some _ => false
                                       end) evs)
               || existsb (in_category "unknown") evs = true).
  { apply orb_true_iff. left. apply negb_true_iff.
    destruct (existsb _ evs) eqn:Ex; [|reflexivity].
    apply existsb_exists in Ex. destruct Ex as [e [Hin He]].
    specialize (Hlab e Hin). now destruct (category (microphone e)). }
  destruct (categories_ok evs HB) as [cats [Hc _]].
  pose proof (generate_report_categories k evs ref) as Hg.
  rewrite Hc in Hg. destruct Hg as [r [Hr _]].
  exists r. split; [exact Hr|].
  intros c d Hin members wers.
  destruct (category_analysis_entry k evs ref r c d Hr Hin) as [Hgrp Hstat].
  destruct (category_stats_fields evs c (samples d) (c, d) Hstat)
    as [_ [_ [Hne [Hq Hw]]]].
  simpl in Hq, Hw.
  split; [|split; [exact Hne | split; [exact Hq | exact Hw]]].
  destruct (group_samples_spec evs) as [_ Hids].
  rewrite (Hids c (samples d) Hgrp). subst members. f_equal.
  clear - Hlab. induction evs as [|e evs IH]; [reflexivity|].
  simpl. rewrite (labelled_in_category e c (Hlab e (or_introl eq_refl))).
  rewrite IH by (intros e' He'; apply Hlab; now right). reflexivity.
Qed.

Lemma category_means_when_labelled_witness :
  exists r d,
    generate_report None Examples.ranked "" = Ok r
    /\ In ("usb"%string, d) (category_analysis r)
    /\ samples d = [1%Z]
    /\ avg_quality d == 50
    /\ (exists x, avg_wer d = Some x /\ x == 1 # 4).
Proof.
  destruct (category_means_when_labelled None Examples.ranked "")
    as [r [Hr Hall]].
  - intros e [<-|[<-|[]]]; discriminate.
  - vm_compute in Hr. injection Hr as <-.
    eexists. eexists. split; [vm_compute; reflexivity|].
    split; [left; reflexivity|]. split; [reflexivity|].
    split; [reflexivity|]. eexists. split; reflexivity.
Defined.

End CategoryGroupFacts.

Section ReportEntryFacts.

Import ReportGen.

Lemma wer_section_entries (k : option string) (evs : list SampleEvaluation)
    (ref : string) (r : Report) (svc : string) (entries : list WerEntry) :
  generate_report k evs ref = Ok r ->
  wer_section svc (rankings r) = Some entries ->
  entries = wer_ranking svc evs.
Proof.
  intros Hr Hs. apply generate_report_rankings in Hr.
  destruct Hr as [_ [Hl [Ho _]]]. unfold wer_section in Hs.
  destruct (String.eqb svc local_service) eqn:E1.
  - apply String.eqb_eq in E1. subst svc. congruence.
  - destruct (String.eqb svc openai_service) eqn:E2; [|discriminate].
    apply String.eqb_eq in E2. subst svc. rewrite Ho in Hs.
    destruct (by_wer openai_service evs); congruence.
Qed.

Lemma in_enumerate_from {A : Type} (l : list A) (i j : nat) (x : A) :
  In (j, x) (Py.enumerate_from i l) -> In x l.
Proof.
  revert i. induction l as [|y l IH]; intros i H; [destruct H|].
  simpl in H. destruct H as [H|H].
  - injection H as _ <-. now left.
  - right. now apply (IH (S i)).
Qed.

Lemma in_ranking {A B : Type} (f : nat * A -> B) (l : list A) (b : B) :
  In b (map f (Py.enumerate l)) -> exists i x, b = f (i, x) /\ In x l.
Proof.
  intro H. apply in_map_iff in H. destruct H as [[i x] [<- Hin]].
  exists i, x. split; [reflexivity|].
  now apply (in_enumerate_from l 0 i x).
Qed.

Lemma NoDup_map_injective {A B : Type} (f : A -> B) (l : list A) (a b : A) :
  NoDup (map f l) -> In a l -> In b l -> f a = f b -> a = b.
Proof.
  induction l as [|x l IH]; intros Hnd Ha Hb Hf; [destruct Ha|].
  simpl in Hnd. inversion Hnd as [|? ? Hx Hl]; subst.
  destruct Ha as [->|Ha], Hb as [->|Hb].
  - reflexivity.
  - exfalso. apply Hx. rewrite Hf. now apply in_map.
  - exfalso. apply Hx. rewrite <- Hf. now apply in_map.
  - now apply IH.
Qed.

(** X20.  A sample without any transcription is still ranked by quality
    and listed in the detailed results, and it is in no WER ranking; with
    distinct sample ids, no entry of a WER ranking bears its id. *)
Theorem untranscribed_sample_in_quality_ranking_only (k : option string)
    (evs : list SampleEvaluation) (ref : string) (r : Report)
    (e : SampleEvaluation) :
  generate_report k evs ref = Ok r ->
  In e evs ->
  transcriptions e = [] ->
  In (sample_id e) (map q_sample_id (by_audio_quality (rankings r)))
  /\ In (detailed e) (detailed_results r)
  /\ (forall svc, ~ In e (by_wer svc evs))
  /\ (NoDup (map sample_id evs) ->
      forall svc entries,
        wer_section svc (rankings r) = Some entries ->
        ~ In (sample_id e) (map w_sample_id entries)).
Proof.
  intros Hr Hin Hnil.
  assert (Hno : forall svc, has_service svc e = false).
  { intro svc. unfold has_service. now rewrite Hnil. }
  pose proof (generate_report_rankings k evs ref r Hr) as [Hq [_ [_ [Hd _]]]].
  split; [|split; [|split]].
  - rewrite Hq. unfold quality_ranking, Py.enumerate.
    rewrite (map_enumerate_from quality_entry q_sample_id sample_id)
      by reflexivity.
    apply in_map. apply (Permutation_in _ (Permutation_sym (by_quality_perm evs))).
    exact Hin.
  - rewrite Hd. now apply in_map.
  - intros svc H. apply by_wer_members in H. destruct H as [_ H].
    rewrite Hno in H. discriminate.
  - intros Hnd svc entries Hs Hid.
    rewrite (wer_section_entries k evs ref r svc entries Hr Hs) in Hid.
    unfold wer_ranking, Py.enumerate in Hid.
    rewrite (map_enumerate_from (wer_entry svc) w_sample_id sample_id) in Hid
      by reflexivity.
    apply in_map_iff in Hid. destruct Hid as [e' [Hid He']].
    apply by_wer_members in He'. destruct He' as [Hin' Hs'].
    assert (e' = e) by (apply (NoDup_map_injective sample_id evs); assumption).
    subst e'. rewrite Hno in Hs'. discriminate.
Qed.

Lemma untranscribed_sample_in_quality_ranking_only_witness :
  exists r,
    generate_report None Examples.tied "" = Ok r
    /\ In 1%Z (map q_sample_id (by_audio_quality (rankings r)))
    /\ ~ In 1%Z (map w_sample_id (by_local_whisper_wer (rankings r))).
Proof.
  destruct (generate_report None Examples.tied "") as [r|x] eqn:E;
    [|vm_compute in E; discriminate E].
  exists r.
  destruct (untranscribed_sample_in_quality_ranking_only
              None Examples.tied "" r
              (Examples.eval_of 1 (Some "usb"%string) 50 []) E)
    as [Hq [_ [_ Hw]]].
  - right. left. reflexivity.
  - reflexivity.
  - split; [reflexivity|]. split; [exact Hq|].
    apply (Hw ltac:(repeat constructor; simpl; intuition discriminate)
              local_service).
    reflexivity.
Defined.

Lemma round_close_1 (x : Q) : Qabs (Py.round x 1 - x) <= 1 # 20.
Proof.
  unfold Py.round. simpl Py.pow10.
  set (y := x * inject_Z 10).
  pose proof (Qfloor_le y) as Hlo. pose proof (Qlt_floor y) as Hhi.
  rewrite inject_Z_plus in Hhi. change (inject_Z 1) with 1 in Hhi.
  assert (Hy : x == y * (1 # 10)).
  { unfold y. change (inject_Z 10) with 10. field. }
  apply Qabs_Qle_condition.
  destruct (Py.ltb (y - inject_Z (Qfloor y)) (1 # 2)) eqn:E1.
  - apply ltb_true in E1. rewrite (Qmake_Qdiv (Qfloor y) 10).
    change (inject_Z 10) with 10. unfold Qdiv. change (/ 10) with (1 # 10).
    split; lra.
  - apply ltb_false in E1.
    assert (Hup : (Qfloor y + 1 # 10) == (inject_Z (Qfloor y) + 1) * (1 # 10)).
    { rewrite (Qmake_Qdiv (Qfloor y + 1) 10), inject_Z_plus.
      change (inject_Z 1) with 1. change (inject_Z 10) with 10.
      unfold Qdiv. change (/ 10) with (1 # 10). reflexivity. }
    destruct (Py.ltb (1 # 2) (y - inject_Z (Qfloor y))) eqn:E2.
    + rewrite Hup. split; lra.
    + apply ltb_false in E2. destruct (Z.even (Qfloor y)).
      * rewrite (Qmake_Qdiv (Qfloor y) 10).
        change (inject_Z 10) with 10. unfold Qdiv.
        change (/ 10) with (1 # 10). split; lra.
      * rewrite Hup. split; lra.
Qed.

End ReportEntryFacts.

Section RoundingFacts.

Import ReportGen.

Lemma round_close_2 (x : Q) : Qabs (Py.round x 2 - x) <= 1 # 200.
Proof.
  unfold Py.round. simpl Py.pow10.
  set (y := x * inject_Z 100).
  pose proof (Qfloor_le y) as Hlo. pose proof (Qlt_floor y) as Hhi.
  rewrite inject_Z_plus in Hhi. change (inject_Z 1) with 1 in Hhi.
  assert (Hy : x == y * (1 # 100)).
  { unfold y. change (inject_Z 100) with 100. field. }
  apply Qabs_Qle_condition.
  destruct (Py.ltb (y - inject_Z (Qfloor y)) (1 # 2)) eqn:E1.
  - apply ltb_true in E1. rewrite (Qmake_Qdiv (Qfloor y) 100).
    change (inject_Z 100) with 100. unfold Qdiv. change (/ 100) with (1 # 100).
    split; lra.
  - apply ltb_false in E1.
    assert (Hup : (Qfloor y + 1 # 100)
                  == (inject_Z (Qfloor y) + 1) * (1 # 100)).
    { rewrite (Qmake_Qdiv (Qfloor y + 1) 100), inject_Z_plus.
      change (inject_Z 1) with 1. change (inject_Z 100) with 100.
      unfold Qdiv. change (/ 100) with (1 # 100). reflexivity. }
    destruct (Py.ltb (1 # 2) (y - inject_Z (Qfloor y))) eqn:E2.
    + rewrite Hup. split; lra.
    + apply ltb_false in E2. destruct (Z.even (Qfloor y)).
      * rewrite (Qmake_Qdiv (Qfloor y) 100).
        change (inject_Z 100) with 100. unfold Qdiv.
        change (/ 100) with (1 # 100). split; lra.
      * rewrite Hup. split; lra.
Qed.

(** X21.  The numbers a report shows are the computed ones up to
    rounding: every score in the quality ranking and in the detailed
    results is within 0.05 of the [audio_quality_score] of its sample,
    and every [wer_percent] of a WER ranking is within 0.005 of a hundred
    times the WER of its sample for that backend. *)
Theorem reported_numbers_are_rounded (k : option string)
    (evs : list SampleEvaluation) (ref : string) (r : Report) :
  generate_report k evs ref = Ok r ->
  (forall en, In en (by_audio_quality (rankings r)) ->
     exists e, In e evs
               /\ q_sample_id en = sample_id e
               /\ Qabs (q_score en - audio_quality_score e) <= 1 # 20)
  /\ (forall dr, In dr (detailed_results r) ->
        exists e, In e evs
                  /\ d_sample_id dr = sample_id e
                  /\ Qabs (d_audio_quality_score dr - audio_quality_score e)
                     <= 1 # 20)
  /\ (forall svc entries en,
        wer_section svc (rankings r) = Some entries ->
        In en entries ->
        exists e x, In e evs
                    /\ w_sample_id en = sample_id e
                    /\ service_wer svc e = Some x
                    /\ Qabs (w_wer_percent en - x * 100) <= 1 # 200).
Proof.
  intro Hr.
  pose proof (generate_report_rankings k evs ref r Hr) as [Hq [_ [_ [Hd _]]]].
  split; [|split].
  - intros en Hin. rewrite Hq in Hin. unfold quality_ranking in Hin.
    apply in_ranking in Hin. destruct Hin as [i [e [-> He]]].
    exists e. split.
    + apply (Permutation_in _ (by_quality_perm evs)). exact He.
    + split; [reflexivity | apply round_close_1].
  - intros dr Hin. rewrite Hd in Hin. apply in_map_iff in Hin.
    destruct Hin as [e [<- He]]. exists e.
    split; [exact He | split; [reflexivity | apply round_close_1]].
  - intros svc entries en Hs Hin.
    rewrite (wer_section_entries k evs ref r svc entries Hr Hs) in Hin.
    unfold wer_ranking in Hin. apply in_ranking in Hin.
    destruct Hin as [i [e [-> He]]].
    apply by_wer_members in He. destruct He as [He Hsvc].
    exists e, (wer_key svc e). split; [exact He|].
    split; [reflexivity|]. split; [now apply has_service_wer|].
    apply round_close_2.
Qed.

Lemma reported_numbers_are_rounded_witness :
  exists r,
    generate_report None Examples.ranked "" = Ok r
    /\ Forall (fun en => exists e, In e Examples.ranked
                                   /\ q_sample_id en = sample_id e
                                   /\ Qabs (q_score en - audio_quality_score e)
                                      <= 1 # 20)
              (by_audio_quality (rankings r)).
Proof.
  destruct (generate_report None Examples.ranked "") as [r|x] eqn:E;
    [|vm_compute in E; discriminate E].
  exists r. split; [reflexivity|].
  apply Forall_forall.
  exact (proj1 (reported_numbers_are_rounded None Examples.ranked "" r E)).
Defined.

End RoundingFacts.

(** ** More on [main] *)

Section MainFacts.

Import Main.

(** The loop from any state: what it adds to the evaluations and to the
    notices when it ends normally. *)
Lemma evaluate_each_result (w : World) (reference_text : string)
    (todo : list Sample) (st st' : list SampleEvaluation * list Notice) :
  evaluate_each w reference_text todo st = Ok st' ->
  exists evs,
    fst st' = fst st ++ evs
    /\ Forall2 (fun s e => Evaluate.evaluate_sample w s reference_text = Ok e)
               (filter (fun s => file_exists w (s_filename s)) todo) evs
    /\ snd st'
       = snd st ++ map (fun s => Skipping (id s) (s_filename s))
                       (filter (fun s => negb (file_exists w (s_filename s)))
                               todo).
Proof.
  revert st. induction todo as [|s todo IH]; intros st H; simpl in H.
  - injection H as <-. exists []. rewrite !app_nil_r.
    repeat split. constructor.
  - simpl. destruct (file_exists w (s_filename s)) eqn:Ef.
    + destruct (Evaluate.evaluate_sample w s reference_text) as [e|x] eqn:Ee;
        simpl in H; [|discriminate].
      destruct (IH _ H) as [evs [He [Hall Hl]]]. simpl in He, Hl.
      exists (e :: evs). split; [now rewrite He, <- app_assoc|].
      split; [constructor; assumption | exact Hl].
    + destruct (IH _ H) as [evs [He [Hall Hl]]]. simpl in He, Hl.
      exists evs. split; [exact He|]. split; [exact Hall|].
      simpl. now rewrite Hl, <- app_assoc.
Qed.

Lemma evaluated_ids (w : World) (reference_text : string)
    (ss : list Sample) (evs : list SampleEvaluation) :
  Forall2 (fun s e => Evaluate.evaluate_sample w s reference_text = Ok e)
          ss evs ->
  map sample_id evs = map id ss.
Proof.
  induction 1 as [|s e ss es Hse _ IH]; [reflexivity|].
  simpl. rewrite IH. f_equal.
  exact (evaluate_sample_id w reference_text s e Hse).
Qed.

End MainFacts.

Section MainTheorems.

Import Main.

Lemma collect_inv (w : World) (args : Args) (metadata : list Sample)
    (reference_text : string) (evs : list SampleEvaluation)
    (log : list Notice) :
  collect w args metadata reference_text = Ok (evs, log) ->
  exists fresh,
    evaluate_each w reference_text (samples_to_evaluate args metadata) ([], [])
    = Ok (fresh, log)
    /\ evs = merge_existing args (existing_detailed_results w args) fresh
    /\ map sample_id fresh
       = map id (filter (fun s => file_exists w (s_filename s))
                        (samples_to_evaluate args metadata))
    /\ log = map (fun s => Skipping (id s) (s_filename s))
                 (filter (fun s => negb (file_exists w (s_filename s)))
                         (samples_to_evaluate args metadata)).
Proof.
  unfold collect. intro H.
  destruct (evaluate_each w reference_text
              (samples_to_evaluate args metadata) ([], []))
    as [[fresh log']|x] eqn:E; simpl in H; [|discriminate].
  injection H as <- <-. exists fresh. split; [reflexivity|].
  split; [reflexivity|].
  destruct (evaluate_each_result w reference_text _ _ _ E)
    as [evs' [He [Hall Hl]]].
  simpl in He, Hl. subst evs'. split; [|exact Hl].
  now apply (evaluated_ids w reference_text).
Qed.

Lemma merge_existing_perm (args : Args) (existing : list DetailedResult)
    (fresh : list SampleEvaluation) :
  arg_merge args = true ->
  Permutation (merge_existing args existing fresh)
              (fresh ++ map existing_eval existing).
Proof.
  intro Hm. unfold merge_existing. rewrite Hm.
  destruct existing; [simpl; now rewrite app_nil_r | apply sorted_perm].
Qed.

Lemma existing_outside_targets (w : World) (args : Args) (ids : list Z) :
  arg_samples args = Some ids ->
  Forall (fun r => mem (d_sample_id r) ids = false)
         (existing_detailed_results w args).
Proof.
  intro Hs. unfold existing_detailed_results. rewrite Hs.
  destruct (arg_merge args); [|constructor].
  destruct (results_file w) as [saved|]; [|constructor].
  apply Forall_forall. intros r Hr. apply filter_In in Hr.
  destruct Hr as [_ Hr]. now apply negb_true_iff in Hr.
Qed.

Lemma generate_report_summary (k : option string)
    (evs : list SampleEvaluation) (ref : string) (r : Report) :
  ReportGen.generate_report k evs ref = Ok r ->
  total_samples (summary r) = List.length evs
  /\ reference_text_words (summary r) = Text.word_count ref
  /\ openai_api_available (summary r) = ReportGen.api_available k
  /\ List.length (by_audio_quality (rankings r)) = List.length evs
  /\ List.length (detailed_results r) = List.length evs.
Proof.
  unfold ReportGen.generate_report.
  destruct (ReportGen.categories evs) as [cats|x]; simpl; [|discriminate].
  intro H. injection H as <-. simpl.
  split; [reflexivity|]. split; [reflexivity|]. split; [reflexivity|].
  split.
  - unfold ReportGen.quality_ranking, Py.enumerate.
    rewrite length_map, enumerate_from_length.
    unfold ReportGen.by_quality. apply sorted_length.
  - apply length_map.
Qed.

(** X22.  Without [--merge] the saved report plays no part: the run gives
    the same evaluations and notices whatever the results file holds, and
    the evaluations are those of the selected samples whose file exists,
    in metadata order (no sorting takes place). *)
Theorem plain_run_ignores_saved_report (w : World) (args : Args)
    (metadata : list Sample) (reference_text : string)
    (saved : option Report) :
  arg_merge args = false ->
  collect (with_results_file w saved) args metadata reference_text
  = collect w args metadata reference_text
  /\ forall evs log,
       collect w args metadata reference_text = Ok (evs, log) ->
       map sample_id evs
       = map id (filter (fun s => file_exists w (s_filename s))
                        (samples_to_evaluate args metadata)).
Proof.
  intro Hm. split.
  - unfold collect. rewrite evaluate_each_with_results_file.
    destruct (evaluate_each w reference_text
                (samples_to_evaluate args metadata) ([], []));
      simpl; [|reflexivity].
    unfold merge_existing. now rewrite Hm.
  - intros evs log H. apply collect_inv in H.
    destruct H as [fresh [_ [He [Hids _]]]].
    subst evs. unfold merge_existing. now rewrite Hm.
Qed.

Lemma plain_run_ignores_saved_report_witness :
  let w := Examples.machine Examples.everywhere Examples.nowhere None in
  collect (with_results_file w (Some (Examples.saved_report [7%Z])))
          Examples.plain_args Examples.unordered_metadata "coffee"
  = collect w Examples.plain_args Examples.unordered_metadata "coffee".
Proof.
  intro w.
  apply (plain_run_ignores_saved_report w Examples.plain_args
           Examples.unordered_metadata "coffee"
           (Some (Examples.saved_report [7%Z]))).
  reflexivity.
Defined.

(** X23.  With [--merge] and no [--samples] nothing of the saved report
    is dropped: the list handed to report generation holds every fresh
    evaluation and every saved entry, so a sample that is evaluated again
    and also has a saved entry is in the list twice. *)
Theorem merge_without_subset_keeps_everything (w : World) (args : Args)
    (metadata : list Sample) (reference_text : string) (prior : Report)
    (evs : list SampleEvaluation) (log : list Notice) :
  arg_merge args = true ->
  arg_samples args = None ->
  results_file w = Some prior ->
  collect w args metadata reference_text = Ok (evs, log) ->
  exists fresh,
    evaluate_each w reference_text metadata ([], []) = Ok (fresh, log)
    /\ Permutation evs (fresh ++ map existing_eval (detailed_results prior))
    /\ List.length evs
       = (List.length fresh + List.length (detailed_results prior))%nat
    /\ (forall e r, In e fresh -> In r (detailed_results prior) ->
          In e evs /\ In (existing_eval r) evs).
Proof.
  intros Hm Hs Hf H. apply collect_inv in H.
  destruct H as [fresh [Hrun [He _]]].
  assert (Hex : existing_detailed_results w args = detailed_results prior).
  { unfold existing_detailed_results. now rewrite Hm, Hf, Hs. }
  assert (Htodo : samples_to_evaluate args metadata = metadata).
  { unfold samples_to_evaluate. now rewrite Hs. }
  rewrite Hex in He. rewrite Htodo in Hrun.
  assert (Hperm : Permutation evs
                    (fresh ++ map existing_eval (detailed_results prior))).
  { subst evs. now apply merge_existing_perm. }
  exists fresh. split; [exact Hrun|]. split; [exact Hperm|]. split.
  - rewrite (Permutation_length Hperm), length_app, length_map. reflexivity.
  - intros e r Hin Hr. split.
    + apply (Permutation_in _ (Permutation_sym Hperm)).
      apply in_or_app. now left.
    + apply (Permutation_in _ (Permutation_sym Hperm)).
      apply in_or_app. right. now apply in_map.
Qed.

Lemma merge_without_subset_keeps_everything_witness :
  let w := Examples.machine Examples.everywhere Examples.nowhere
             (Some (Examples.saved_report [1%Z])) in
  exists evs log,
    collect w {| arg_samples := None; arg_merge := true |}
            Examples.unordered_metadata "coffee"
    = Ok (evs, log)
    /\ List.length evs = 3%nat.
Proof.
  intro w.
  destruct (collect w {| arg_samples := None; arg_merge := true |}
                    Examples.unordered_metadata "coffee")
    as [[evs log]|x] eqn:E; [|vm_compute in E; discriminate E].
  exists evs, log. split; [reflexivity|].
  destruct (merge_without_subset_keeps_everything
              w {| arg_samples := None; arg_merge := true |}
              Examples.unordered_metadata "coffee"
              (Examples.saved_report [1%Z]) evs log
              eq_refl eq_refl eq_refl E) as [fresh [Hrun [_ [Hlen _]]]].
  rewrite Hlen. vm_compute in Hrun. injection Hrun as <- _. reflexivity.
Defined.

(** X24.  Re-evaluating a sample whose audio file is missing removes it:
    in merge mode a targeted id none of whose metadata entries has an
    existing file is absent from the merged list, its saved entry having
    been dropped and no fresh one made. *)
Theorem targeted_sample_without_file_is_dropped (w : World) (args : Args)
    (metadata : list Sample) (reference_text : string) (ids : list Z)
    (i : Z) (evs : list SampleEvaluation) (log : list Notice) :
  arg_merge args = true ->
  arg_samples args = Some ids ->
  mem i ids = true ->
  (forall s, In s metadata -> id s = i ->
     file_exists w (s_filename s) = false) ->
  collect w args metadata reference_text = Ok (evs, log) ->
  ~ In i (map sample_id evs).
Proof.
  intros Hm Hs Hi Hmiss H Hin. apply collect_inv in H.
  destruct H as [fresh [_ [He [Hids _]]]].
  assert (Hperm : Permutation evs
             (fresh ++ map existing_eval (existing_detailed_results w args))).
  { subst evs. now apply merge_existing_perm. }
  apply (Permutation_in _ (Permutation_map sample_id Hperm)) in Hin.
  rewrite map_app in Hin. apply in_app_or in Hin. destruct Hin as [Hin|Hin].
  - rewrite Hids in Hin. apply in_map_iff in Hin.
    destruct Hin as [s [Hid Hsin]]. apply filter_In in Hsin.
    destruct Hsin as [Hsin Hex].
    unfold samples_to_evaluate in Hsin. rewrite Hs in Hsin.
    apply filter_In in Hsin. destruct Hsin as [Hsin _].
    rewrite (Hmiss s Hsin Hid) in Hex. discriminate.
  - rewrite map_map in Hin. apply in_map_iff in Hin.
    destruct Hin as [r [Hid Hr]]. simpl in Hid.
    pose proof (existing_outside_targets w args ids Hs) as Hout.
    rewrite Forall_forall in Hout. specialize (Hout r Hr).
    rewrite Hid in Hout. congruence.
Qed.

Lemma targeted_sample_without_file_is_dropped_witness :
  let w := Examples.machine Examples.is_a_wav Examples.nowhere
             (Some (Examples.saved_report [1%Z; 2%Z; 3%Z])) in
  exists evs log,
    collect w (Examples.merge_args [3%Z]) Examples.ordered_metadata "coffee"
    = Ok (evs, log)
    /\ ~ In 3%Z (map sample_id evs).
Proof.
  intro w.
  destruct (collect w (Examples.merge_args [3%Z]) Examples.ordered_metadata
                    "coffee") as [[evs log]|x] eqn:E;
    [|vm_compute in E; discriminate E].
  exists evs, log. split; [reflexivity|].
  apply (targeted_sample_without_file_is_dropped
           w (Examples.merge_args [3%Z]) Examples.ordered_metadata "coffee"
           [3%Z] 3%Z evs log eq_refl eq_refl eq_refl).
  - intros s [<-|[<-|[<-|[]]]] Hid; solve [reflexivity | discriminate Hid].
  - exact E.
Defined.

(** X25.  Saving and reading back is lossless for the detailed results:
    turning the detailed results of a generated report back into
    evaluations and writing them out again reproduces them exactly, and a
    read-back evaluation differs from the original one only in its score,
    which is the rounded one. *)
Theorem detailed_results_round_trip (k : option string)
    (evs : list SampleEvaluation) (ref : string) (r : Report) :
  ReportGen.generate_report k evs ref = Ok r ->
  map ReportGen.detailed (map existing_eval (detailed_results r))
  = detailed_results r
  /\ Forall2 (fun e e' =>
                sample_id e' = sample_id e
                /\ filename e' = filename e
                /\ microphone e' = microphone e
                /\ audio_metrics e' = audio_metrics e
                /\ transcriptions e' = transcriptions e
                /\ audio_quality_score e'
                   = Py.round (audio_quality_score e) 1)
             evs (map existing_eval (detailed_results r)).
Proof.
  intro Hr. apply generate_report_rankings in Hr.
  destruct Hr as [_ [_ [_ [Hd _]]]]. rewrite Hd. split.
  - rewrite !map_map. apply map_ext. intro e. apply detailed_round_trip.
  - clear Hd. induction evs as [|e evs IH]; simpl; constructor;
      [repeat split | exact IH].
Qed.

Lemma detailed_results_round_trip_witness :
  exists r,
    ReportGen.generate_report None Examples.ranked "" = Ok r
    /\ map ReportGen.detailed (map existing_eval (detailed_results r))
       = detailed_results r.
Proof.
  destruct (ReportGen.generate_report None Examples.ranked "") as [r|x] eqn:E;
    [|vm_compute in E; discriminate E].
  exists r. split; [reflexivity|].
  exact (proj1 (detailed_results_round_trip None Examples.ranked "" r E)).
Defined.

(** X26.  What a completed run reports in its summary: the word count is
    that of the reference file itself, [total_samples] is the number of
    detailed results and of entries in the quality ranking,
    [openai_api_available] tells whether the key is set, and there is one
    skip notice for each selected sample whose file is missing. *)
Theorem completed_run_summary (w : World) (args : Args)
    (metadata : list Sample) (reference_contents : string)
    (r : Report) (log : list Notice) :
  main w args metadata reference_contents = Ok (r, log) ->
  reference_text_words (summary r) = Text.word_count reference_contents
  /\ total_samples (summary r) = List.length (detailed_results r)
  /\ total_samples (summary r) = List.length (by_audio_quality (rankings r))
  /\ openai_api_available (summary r)
     = ReportGen.api_available (OPENAI_API_KEY w)
  /\ log = map (fun s => Skipping (id s) (s_filename s))
               (filter (fun s => negb (file_exists w (s_filename s)))
                       (samples_to_evaluate args metadata)).
Proof.
  unfold main. intro H.
  destruct (collect w args metadata
              (Text.get_reference_text reference_contents))
    as [[evs log']|x] eqn:Ec; simpl in H; [|discriminate].
  destruct (ReportGen.generate_report (OPENAI_API_KEY w) evs
              (Text.get_reference_text reference_contents))
    as [r'|x] eqn:Er; simpl in H; [|discriminate].
  injection H as <- <-.
  destruct (generate_report_summary _ _ _ _ Er)
    as [Ht [Hw [Ha [Hq Hd]]]].
  apply collect_inv in Ec. destruct Ec as [fresh [_ [_ [_ Hlog]]]].
  split; [rewrite Hw; apply word_count_reference|].
  split; [congruence|]. split; [congruence|].
  split; [exact Ha | exact Hlog].
Qed.

Lemma completed_run_summary_witness :
  exists r log,
    main (Examples.machine Examples.is_a_wav Examples.nowhere None)
         Examples.plain_args Examples.ordered_metadata "Hot  COFFEE now"
    = Ok (r, log)
    /\ reference_text_words (summary r) = 3%nat
    /\ List.length log = 2%nat.
Proof.
  destruct (main (Examples.machine Examples.is_a_wav Examples.nowhere None)
                 Examples.plain_args Examples.ordered_metadata
                 "Hot  COFFEE now") as [[r log]|x] eqn:E;
    [|vm_compute in E; discriminate E].
  exists r, log. split; [reflexivity|].
  destruct (completed_run_summary _ _ _ _ _ _ E) as [Hw [_ [_ [_ Hlog]]]].
  split; [rewrite Hw; reflexivity | rewrite Hlog; reflexivity].
Defined.

End MainTheorems.

Section SummaryLineFacts.

Import ReportGen.

Lemma fold_left_Qplus_zero (ws : list Q) (a : Q) :
  Forall (fun x => x == 0) ws -> fold_left Qplus ws a == a.
Proof.
  intro H. revert a. induction H as [|x ws Hx _ IH]; intro a; simpl.
  - reflexivity.
  - rewrite IH, Hx. ring.
Qed.

Lemma present_service_wers (members : list SampleEvaluation) (x : Q) :
  In x (present (map (service_wer local_service) members)) ->
  exists e, In e members /\ service_wer local_service e = Some x.
Proof.
  induction members as [|e members IH]; simpl; [intros []|].
  destruct (service_wer local_service e) as [y|] eqn:Ey.
  - intros [<-|H].
    + exists e. split; [now left | exact Ey].
    + destruct (IH H) as [e' [He' Hx]]. exists e'. split; [now right | exact Hx].
  - intro H. destruct (IH H) as [e' [He' Hx]].
    exists e'. split; [now right | exact Hx].
Qed.

(** X27.  The category lines printed at the end of a run show ["N/A"]
    for a group whose local transcriptions are all perfect: an average
    WER of exactly 0 is falsy, so it is displayed like a missing one. *)
Theorem perfect_category_is_printed_not_available (k : option string)
    (evs : list SampleEvaluation) (ref : string) (r : Report)
    (c : string) (d : CategoryData) :
  generate_report k evs ref = Ok r ->
  In (c, d) (category_analysis r) ->
  (forall e x, In e evs -> in_category c e = true ->
     service_wer local_service e = Some x -> x == 0) ->
  Main.wer_str d = Main.NotAvailable.
Proof.
  intros Hr Hin Hzero.
  destruct (category_analysis_entry k evs ref r c d Hr Hin) as [_ Hstat].
  destruct (category_stats_fields evs c (samples d) (c, d) Hstat)
    as [_ [_ [_ [_ Hw]]]].
  simpl in Hw. unfold Main.wer_str. rewrite Hw.
  set (wers := present (map (service_wer local_service)
                            (filter (in_category c) evs))) in *.
  assert (Hall : Forall (fun x => x == 0) wers).
  { apply Forall_forall. intros x Hx. apply present_service_wers in Hx.
    destruct Hx as [e [He Hx]]. apply filter_In in He.
    destruct He as [He Hc]. exact (Hzero e x He Hc Hx). }
  destruct wers as [|x xs] eqn:Ew; [reflexivity|].
  assert (Hs : Py.sum (x :: xs) / inject_Z (Z.of_nat (List.length (x :: xs)))
               == 0).
  { unfold Py.sum. rewrite (fold_left_Qplus_zero _ 0 Hall).
    unfold Qdiv. ring. }
  unfold Py.truthy.
  apply Qeq_bool_iff in Hs. now rewrite Hs.
Qed.

Lemma perfect_category_is_printed_not_available_witness :
  exists r d,
    generate_report None
      [Examples.eval_of 1 (Some "usb"%string) 50
         [Examples.result_of local_service 0]] "" = Ok r
    /\ In ("usb"%string, d) (category_analysis r)
    /\ (exists x, avg_wer d = Some x)
    /\ Main.wer_str d = Main.NotAvailable.
Proof.
  destruct (generate_report None
              [Examples.eval_of 1 (Some "usb"%string) 50
                 [Examples.result_of local_service 0]] "")
    as [r|x] eqn:E; [|vm_compute in E; discriminate E].
  assert (Hin : exists d, In ("usb"%string, d) (category_analysis r)
                          /\ exists x, avg_wer d = Some x).
  { vm_compute in E. injection E as <-. eexists. split; [left; reflexivity|].
    eexists. reflexivity. }
  destruct Hin as [d [Hin Hx]]. exists r, d.
  split; [reflexivity|]. split; [exact Hin|]. split; [exact Hx|].
  apply (perfect_category_is_printed_not_available None _ "" r "usb" d E Hin).
  intros e x [<-|[]] _ Hs. vm_compute in Hs. injection Hs as <-. reflexivity.
Defined.

End SummaryLineFacts.

(** ** Missing files and the report *)

Section SkipReportFacts.

Import Main.

Lemma saved_without_merge (w : World) (args : Args) :
  arg_merge args = false -> existing_detailed_results w args = [].
Proof. intro H. unfold existing_detailed_results. now rewrite H. Qed.

Lemma merged_ids (w : World) (args : Args) (fresh : list SampleEvaluation) :
  Permutation
    (map sample_id
         (merge_existing args (existing_detailed_results w args) fresh))
    (map sample_id fresh
     ++ map d_sample_id (existing_detailed_results w args)).
Proof.
  destruct (arg_merge args) eqn:Hm.
  - rewrite (Permutation_map sample_id
               (merge_existing_perm args _ fresh Hm)).
    rewrite map_app, map_map. apply Permutation_refl.
  - rewrite (saved_without_merge w args Hm). unfold merge_existing.
    rewrite Hm. simpl. rewrite app_nil_r. apply Permutation_refl.
Qed.

Lemma report_ids (k : option string) (evs : list SampleEvaluation)
    (ref : string) (r : Report) :
  ReportGen.generate_report k evs ref = Ok r ->
  map d_sample_id (detailed_results r) = map sample_id evs
  /\ Permutation (map q_sample_id (by_audio_quality (rankings r)))
                 (map sample_id evs).
Proof.
  intro Hr. apply generate_report_rankings in Hr.
  destruct Hr as [Hq [_ [_ [Hd _]]]]. split.
  - rewrite Hd, map_map. reflexivity.
  - rewrite Hq. unfold ReportGen.quality_ranking, Py.enumerate.
    rewrite (map_enumerate_from ReportGen.quality_entry q_sample_id sample_id)
      by reflexivity.
    apply Permutation_map, by_quality_perm.
Qed.

(** C6, as the code has it.  A sample whose audio file does not exist is
    not evaluated; a skip notice is logged for it and the loop goes on:
    provided the evaluation of the selected samples whose file exists
    does not raise, the loop completes, with one notice for each missing
    file, and report generation is reached.  The samples of a completed
    run's report are then the selected samples whose file exists together
    with the saved entries that merge mode carries over.  So a sample
    without a file is left out of the report, except that in merge mode a
    saved entry with its id that [--samples] does not target is kept;
    without [--merge] nothing is carried over, and a targeted id never
    is. *)
Theorem missing_files_are_skipped (w : World) (args : Args)
    (metadata : list Sample) (reference_contents : string) :
  let reference_text := Text.get_reference_text reference_contents in
  let selected := samples_to_evaluate args metadata in
  let found := filter (fun s => file_exists w (s_filename s)) selected in
  let notices :=
    map (fun s => Skipping (id s) (s_filename s))
        (filter (fun s => negb (file_exists w (s_filename s))) selected) in
  let saved := existing_detailed_results w args in
  (forall s, In s selected -> file_exists w (s_filename s) = true ->
     is_ok (Evaluate.evaluate_sample w s reference_text) = true) ->
  (exists evs,
     collect w args metadata reference_text = Ok (evs, notices)
     /\ Permutation (map sample_id evs)
                    (map id found ++ map d_sample_id saved)
     /\ main w args metadata reference_contents
        = (report <- ReportGen.generate_report (OPENAI_API_KEY w) evs
                                               reference_text ;;
           Ok (report, notices)))
  /\ (forall r log,
        main w args metadata reference_contents = Ok (r, log) ->
        log = notices
        /\ Permutation (map d_sample_id (detailed_results r))
                       (map id found ++ map d_sample_id saved)
        /\ forall i,
             (forall s, In s selected -> id s = i ->
                file_exists w (s_filename s) = false) ->
             (In i (map d_sample_id (detailed_results r))
              <-> In i (map d_sample_id saved))
             /\ (In i (map q_sample_id (by_audio_quality (rankings r)))
                 <-> In i (map d_sample_id saved)))
  /\ (arg_merge args = false -> saved = [])
  /\ (forall ids, arg_samples args = Some ids ->
        Forall (fun r => mem (d_sample_id r) ids = false) saved).
Proof.
  intros reference_text selected found notices saved Hok.
  destruct (evaluate_each_ok w reference_text selected ([], []) Hok)
    as [fresh [Hrun Hall]].
  simpl in Hrun. fold notices in Hrun. fold found in Hall.
  set (evs := merge_existing args saved fresh).
  assert (Hcollect : collect w args metadata reference_text
                     = Ok (evs, notices)).
  { unfold collect. fold selected. rewrite Hrun. reflexivity. }
  assert (Hids : Permutation (map sample_id evs)
                   (map id found ++ map d_sample_id saved)).
  { unfold evs, saved.
    rewrite <- (evaluated_ids w reference_text found fresh Hall).
    apply merged_ids. }
  assert (Hmain : main w args metadata reference_contents
                  = (report <- ReportGen.generate_report (OPENAI_API_KEY w)
                                 evs reference_text ;;
                     Ok (report, notices))).
  { unfold main. fold reference_text. rewrite Hcollect. reflexivity. }
  split; [exists evs; now repeat split|].
  split; [|split].
  - intros r log Hr. rewrite Hmain in Hr.
    destruct (ReportGen.generate_report (OPENAI_API_KEY w) evs reference_text)
      as [r'|x] eqn:Eg; simpl in Hr; [|discriminate].
    injection Hr as <- <-.
    destruct (report_ids _ _ _ _ Eg) as [Hd Hq].
    split; [reflexivity|]. split; [now rewrite Hd|].
    intros i Hmiss.
    assert (Hnot : ~ In i (map id found)).
    { intro Hin. apply in_map_iff in Hin. destruct Hin as [s [Hid Hs]].
      unfold found in Hs. apply filter_In in Hs. destruct Hs as [Hs Hex].
      rewrite (Hmiss s Hs Hid) in Hex. discriminate. }
    assert (Hiff : In i (map sample_id evs) <-> In i (map d_sample_id saved)).
    { split.
      - intro Hin. apply (Permutation_in _ Hids) in Hin.
        apply in_app_or in Hin. tauto.
      - intro Hin. apply (Permutation_in _ (Permutation_sym Hids)).
        apply in_or_app. now right. }
    split.
    + now rewrite Hd.
    + rewrite <- Hiff. split; apply Permutation_in;
        [exact Hq | exact (Permutation_sym Hq)].
  - apply saved_without_merge.
  - intros ids Hs. now apply existing_outside_targets.
Qed.

Lemma missing_files_are_skipped_witness :
  let w := Examples.machine Examples.is_a_wav Examples.nowhere
             (Some (Examples.saved_report [2%Z])) in
  let args := {| arg_samples := None; arg_merge := true |} in
  exists r,
    main w args Examples.ordered_metadata "coffee"
    = Ok (r, [Skipping 2 "b.wav"; Skipping 3 "c.wav"])
    /\ ~ In 3%Z (map d_sample_id (detailed_results r))
    /\ In 2%Z (map d_sample_id (detailed_results r))
    /\ (In 1%Z (map d_sample_id (detailed_results r))).
Proof.
  intros w args.
  destruct (missing_files_are_skipped w args Examples.ordered_metadata "coffee")
    as [_ [Hreport _]].
  - intros s [<-|[<-|[<-|[]]]] H; solve [reflexivity | discriminate H].
  - destruct (main w args Examples.ordered_metadata "coffee")
      as [[r log]|x] eqn:E; [|vm_compute in E; discriminate E].
    destruct (Hreport r log eq_refl) as [Hlog [Hperm Hmiss]].
    exists r. rewrite Hlog. split; [reflexivity|].
    assert (H3 : forall s, In s (samples_to_evaluate args
                                   Examples.ordered_metadata) ->
                 id s = 3%Z -> file_exists w (s_filename s) = false).
    { intros s [<-|[<-|[<-|[]]]] Hid; solve [reflexivity | discriminate Hid]. }
    assert (H2 : forall s, In s (samples_to_evaluate args
                                   Examples.ordered_metadata) ->
                 id s = 2%Z -> file_exists w (s_filename s) = false).
    { intros s [<-|[<-|[<-|[]]]] Hid; solve [reflexivity | discriminate Hid]. }
    split; [|split].
    + intro Hin. apply (proj1 (Hmiss 3%Z H3)) in Hin.
      simpl in Hin. destruct Hin as [Hin|[]]. discriminate Hin.
    + apply (proj1 (Hmiss 2%Z H2)). simpl. now left.
    + apply (Permutation_in _ (Permutation_sym Hperm)). simpl. now left.
Defined.

(** Without [--merge] the same missing files leave the report with the
    one sample that has a file. *)
Lemma missing_files_plain_run :
  exists r,
    main (Examples.machine Examples.is_a_wav Examples.nowhere
            (Some (Examples.saved_report [2%Z])))
         Examples.plain_args Examples.ordered_metadata "coffee"
    = Ok (r, [Skipping 2 "b.wav"; Skipping 3 "c.wav"])
    /\ map d_sample_id (detailed_results r) = [1%Z].
Proof.
  eexists. split; [vm_compute; reflexivity | reflexivity].
Qed.

End SkipReportFacts.
